(** * The parameter bridge of pyOpenMS/Param.pyx

    A shallow embedding of [paramToDict] and [dictToParam], the two
    conversions between the native parameter container ([Param]) and a
    Python dictionary, and the properties of the two that the specification
    states.

    The Cython code runs on three kinds of data: Python objects (the
    dictionary that is read or built, and the scalars in it), C values
    ([long], [int], [double], [char *]) and C++ objects allocated with [new]
    ([DataValue], [string]).  The embedding keeps the three apart: Python
    dictionaries live in a store of mutable objects, [new]/[del] act on a
    native heap, and the casts between Python and C are written out. *)

From stdpp Require Import gmap strings list fin_maps.
From Stdlib Require Import ZArith Floats.PrimFloat.

Set Warnings "-register-all,-clear-no-such-hyp,-inexact-float".

(** ** C strings *)

(** A [char *] is read up to its first zero byte: this is what happens to a
    [std::string] handed to Python through [c_str()], to the result of
    [toChar()], and to a Python [str] given to a constructor that takes a
    [char *]. *)
Definition NUL : Ascii.ascii := Ascii.zero.

Fixpoint c_str (s : string) : string :=
  match s with
  | EmptyString => EmptyString
  | String c r => if Ascii.eqb c NUL then EmptyString else String c (c_str r)
  end.

Definition NUL_free (s : string) : Prop := c_str s = s.

Global Instance NUL_free_dec s : Decision (NUL_free s).
Proof. unfold NUL_free. apply _. Defined.

(** ** C integer types *)

(** The widths of [long] and [int] are the platform's: the documentation
    names 32 bit Windows (both 32 bits wide) and 64 bit Ubuntu ([long] is 64
    bits wide there, [int] 32). *)
Class Platform := {
  LONG_BITS : Z;
  INT_BITS : Z;
  INT_BITS_pos : (0 < INT_BITS)%Z;
  INT_le_LONG : (INT_BITS <= LONG_BITS)%Z
}.

Definition ILP32 : Platform.
Proof. refine {| LONG_BITS := 32; INT_BITS := 32 |}; lia. Defined.

Definition LP64 : Platform.
Proof. refine {| LONG_BITS := 64; INT_BITS := 32 |}; lia. Defined.

(** [fits w n]: [n] is a value of the signed type of [w] bits. *)
Definition fits (w n : Z) : Prop := (- 2 ^ (w - 1) <= n < 2 ^ (w - 1))%Z.

Global Instance fits_dec w n : Decision (fits w n).
Proof. unfold fits. apply _. Defined.

(** Conversion to the signed type of [w] bits, two's complement. *)
Definition wrap (w n : Z) : Z :=
  ((n + 2 ^ (w - 1)) mod 2 ^ w - 2 ^ (w - 1))%Z.

(** ** Python objects *)

(** The objects a dictionary value can be.  Python 2's [int] and [long] are
    one constructor: the code tests them in one condition, converts both with
    the same cast, and Python compares them by value. [bool] is a subclass of
    [int]. *)
Inductive pyobj :=
| PyNone
| PyBool (b : bool)
| PyInt (n : Z)
| PyFloat (x : float)
| PyStr (s : string)
| PyUnicode (s : string)
| PyList (l : list pyobj).

(** [isinstance(value, int) or isinstance(value, long)] *)
Definition isinstance_int_long (value : pyobj) : bool :=
  match value with PyInt _ | PyBool _ => true | _ => false end.

(** [isinstance(value, float)] *)
Definition isinstance_float (value : pyobj) : bool :=
  match value with PyFloat _ => true | _ => false end.

(** [isinstance(value, str)] *)
Definition isinstance_str (value : pyobj) : bool :=
  match value with PyStr _ => true | _ => false end.

(** A Python dictionary with text keys, as the list of its items in the order
    [items()] enumerates them; the keys of a dictionary are distinct. *)
Abbreviation pydict := (list (string * pyobj)).

Definition dict_wf (d : pydict) : Prop := NoDup d.*1.

(** [d[k] = v] *)
Fixpoint dict_set (k : string) (v : pyobj) (d : pydict) : pydict :=
  match d with
  | [] => [(k, v)]
  | (k', v') :: r =>
      if decide (k' = k) then (k, v) :: r else (k', v') :: dict_set k v r
  end.

(** What a dictionary maps each key to, whatever the order of enumeration:
    two dictionaries are equal as mappings when their [dict_map] are equal. *)
Definition dict_map (d : pydict) : gmap string pyobj := list_to_map d.

(** The errors a conversion can end with. [KeyLookupFailure] is the
    specification's name for the failure of [getValue] on a key the
    container lacks. *)
Inductive exn :=
| OverflowError                (* a Python integer that does not fit a C long *)
| TypeError                    (* an object of a type the operation refuses *)
| KeyLookupFailure.

(** ** The native side *)

(** Modelled from the spec: the declarations of [DataValue] (DataValue.pxd)
    are not among the sources.  A tagged parameter value is a discriminated
    union; the three tags the bridge tests are named as in the code, and the
    remaining constructors are the "any other tag" of the specification,
    named as the wrapped library names them. *)
Inductive ValueType :=
| STRING_VALUE | INT_VALUE | DOUBLE_VALUE
| STRING_LIST | INT_LIST | DOUBLE_LIST | EMPTY_VALUE.

Inductive DataValue :=
| DVString (s : string)
| DVInt (n : Z)
| DVDouble (x : float)
| DVStringList (l : list string)
| DVIntList (l : list Z)
| DVDoubleList (l : list float)
| DVEmpty.

Definition valueType (val : DataValue) : ValueType :=
  match val with
  | DVString _ => STRING_VALUE
  | DVInt _ => INT_VALUE
  | DVDouble _ => DOUBLE_VALUE
  | DVStringList _ => STRING_LIST
  | DVIntList _ => INT_LIST
  | DVDoubleList _ => DOUBLE_LIST
  | DVEmpty => EMPTY_VALUE
  end.

(** [DataValue(long)], [DataValue(double)] and [DataValue(char * )]; the last
    one copies a C string. *)
Definition DataValue_long (n : Z) : DataValue := DVInt n.
Definition DataValue_double (x : float) : DataValue := DVDouble x.
Definition DataValue_chars (s : string) : DataValue := DVString (c_str s).

(** [val.toChar()], [<int> val] and [<double> val].  The bridge calls each
    one under the test of the matching tag only; on another tag the value
    given here is not used. *)
Definition toChar (val : DataValue) : string :=
  match val with DVString s => c_str s | _ => EmptyString end.

Definition cast_int `{Platform} (val : DataValue) : Z :=
  match val with DVInt n => wrap INT_BITS n | _ => 0%Z end.

Definition cast_double (val : DataValue) : float :=
  match val with DVDouble x => x | _ => 0%float end.

(** Modelled from the spec: the declarations of [Param] (Param.pxd) and the
    helper [getKeys] are not among the sources.  A parameter container is a
    mapping from unique text keys to tagged values, exposing the list of its
    keys and value lookup by key; the order of the keys is not significant. *)
Abbreviation Param := (gmap string DataValue).

Definition getKeys (p : Param) : list string := (map_to_list p).*1.

Definition setValue (key : string) (val : DataValue) (p : Param) : Param :=
  <[key := val]> p.

(** ** Machine state and the conversion monad *)

(** What [new] allocates. *)
Inductive cell :=
| CString (s : string)
| CDataValue (d : DataValue).

(** The Python dictionaries, by object identity, and the native heap, by
    address; a deleted cell is [None]. *)
Record state := mkState {
  pyobjs : list pydict;
  natives : list (option cell)
}.

(** Undefined behaviour of the native code. *)
Inductive ub :=
| UnassignedPointer     (* a pointer variable read before any assignment *)
| InvalidPointer        (* a pointer to no live object of the expected type *)
| BadReference.         (* a reference to no Python dictionary *)

Inductive result (A : Type) :=
| Returns (a : A) (σ : state)
| Raises (e : exn) (σ : state)
| Undefined (u : ub).
Arguments Returns {A} a σ.
Arguments Raises {A} e σ.
Arguments Undefined {A} u.

Definition M (A : Type) : Type := state → result A.

Global Instance M_ret : MRet M := λ A a σ, Returns a σ.

Global Instance M_bind : MBind M := λ A B f m σ,
  match m σ with
  | Returns a σ' => f a σ'
  | Raises e σ' => Raises e σ'
  | Undefined u => Undefined u
  end.

Definition raise {A} (e : exn) : M A := λ σ, Raises e σ.

(** The statement [raise o] for an object [o] that is neither an exception
    class nor an exception instance, as a str and every other object of
    [pyobj]: the statement itself is refused, and what reaches the caller is
    a [TypeError] of the runtime, whatever [o] says. *)
Definition raise_object {A} (o : pyobj) : M A := raise TypeError.

(** A [cdef] function that returns a C++ value and declares no [except]
    clause cannot hand an exception to its caller: the exception is written
    to the error stream and dropped, and the function returns a
    default-constructed value. The error stream is not part of [state]. *)
Definition unraisable {A} (default : A) (m : M A) : M A := λ σ,
  match m σ with
  | Raises _ σ' => Returns default σ'
  | r => r
  end.

(** [new T(...)]: the object gets the next address. *)
Definition new (c : cell) : M nat := λ σ,
  Returns (length (natives σ))
          (mkState (pyobjs σ) (natives σ ++ [Some c])).

(** [del ptr] *)
Definition del (ptr : nat) : M unit := λ σ,
  match natives σ !! ptr with
  | Some (Some _) => Returns () (mkState (pyobjs σ) (<[ptr := None]> (natives σ)))
  | _ => Undefined InvalidPointer
  end.

(** [deref(ptr)] for a [string *] and for a [DataValue *]. A pointer variable
    holds [None] until it is assigned. *)
Definition deref_string (ptr : option nat) : M string := λ σ,
  match ptr with
  | None => Undefined UnassignedPointer
  | Some a =>
      match natives σ !! a with
      | Some (Some (CString s)) => Returns s σ
      | _ => Undefined InvalidPointer
      end
  end.

Definition deref_DataValue (ptr : option nat) : M DataValue := λ σ,
  match ptr with
  | None => Undefined UnassignedPointer
  | Some a =>
      match natives σ !! a with
      | Some (Some (CDataValue d)) => Returns d σ
      | _ => Undefined InvalidPointer
      end
  end.

(** [dict()], [dd.items()] and [rv[k] = v] on the dictionary objects. *)
Definition dict_new : M nat := λ σ,
  Returns (length (pyobjs σ)) (mkState (pyobjs σ ++ [[]]) (natives σ)).

Definition dict_items (dd : nat) : M pydict := λ σ,
  match pyobjs σ !! dd with
  | Some d => Returns d σ
  | None => Undefined BadReference
  end.

Definition dict_setitem (rv : nat) (k : string) (v : pyobj) : M unit := λ σ,
  match pyobjs σ !! rv with
  | Some d => Returns () (mkState (<[rv := dict_set k v d]> (pyobjs σ)) (natives σ))
  | None => Undefined BadReference
  end.

(** The casts from a Python object: [<long>(value)], [<double>(value)] and
    [<char *>value]. *)
Definition cast_long `{Platform} (value : pyobj) : M Z :=
  match value with
  | PyInt n => if decide (fits LONG_BITS n) then mret n else raise OverflowError
  | PyBool b => mret (Z.b2z b)
  | _ => raise TypeError
  end.

Definition cast_pydouble (value : pyobj) : M float :=
  match value with
  | PyFloat x => mret x
  | _ => raise TypeError
  end.

Definition cast_chars (value : pyobj) : M string :=
  match value with
  | PyStr s => mret s
  | _ => raise TypeError
  end.

(** [p.getValue(skey)] *)
Definition getValue (p : Param) (skey : string) : M DataValue :=
  match p !! skey with
  | Some val => mret val
  | None => raise KeyLookupFailure
  end.

(** ** paramToDict *)

Section Bridge.
Context `{Platform}.

(** The body of the [while] loop, for the key [skey]. *)
Definition paramToDict_body (p : Param) (rv : nat) (skey : string) : M unit :=
  val ← getValue p skey;
  match valueType val with
  | STRING_VALUE => dict_setitem rv (c_str skey) (PyStr (toChar val))
  | INT_VALUE => dict_setitem rv (c_str skey) (PyInt (cast_int val))
  | DOUBLE_VALUE => dict_setitem rv (c_str skey) (PyFloat (cast_double val))
  | _ => raise_object (PyStr "not implemented !")
  end.

Fixpoint paramToDict_loop (p : Param) (rv : nat) (keys : list string) : M unit :=
  match keys with
  | [] => mret ()
  | skey :: keys' => paramToDict_body p rv skey ≫= λ _, paramToDict_loop p rv keys'
  end.

(** [cdef paramToDict(Param p)] returns a Python object: an exception of the
    body reaches the caller. *)
Definition paramToDict (p : Param) : M nat :=
  let keys := getKeys p in
  rv ← dict_new;
  paramToDict_loop p rv keys ≫= λ _,
  mret rv.

(** ** dictToParam *)

(** The body of the [for] loop, for the item [(key, value)]: three
    independent [if]s, each assigning [dv], then the insertion. *)
Definition dictToParam_body (key : string) (value : pyobj)
    (p : Param) (dv : option nat) : M (Param * option nat) :=
  dv ← (if isinstance_int_long value
        then n ← cast_long value; a ← new (CDataValue (DataValue_long n)); mret (Some a)
        else mret dv);
  dv ← (if isinstance_float value
        then x ← cast_pydouble value; a ← new (CDataValue (DataValue_double x)); mret (Some a)
        else mret dv);
  dv ← (if isinstance_str value
        then s ← cast_chars value; a ← new (CDataValue (DataValue_chars s)); mret (Some a)
        else mret dv);
  temps ← new (CString (c_str key));
  k ← deref_string (Some temps);
  d ← deref_DataValue dv;
  del temps ≫= λ _,
  mret (setValue k d p, dv).

Fixpoint dictToParam_loop (items : pydict) (p : Param) (dv : option nat) : M Param :=
  match items with
  | [] => mret p
  | (key, value) :: items' =>
      dictToParam_body key value p dv ≫= λ '(p', dv'), dictToParam_loop items' p' dv'
  end.

(** [cdef Param dictToParam(dict dd)]: the return type is the C++ class and
    there is no [except] clause, so an exception of the body ends the call
    with the default, empty [Param]. *)
Definition dictToParam (dd : nat) : M Param :=
  unraisable ∅
    (items ← dict_items dd;
     dictToParam_loop items ∅ None).

End Bridge.

(** * Vocabulary of the properties *)

Section Vocabulary.
Context `{Platform}.

(** A value that one of the three [isinstance] tests accepts. *)
Definition supported (value : pyobj) : bool :=
  isinstance_int_long value || isinstance_float value || isinstance_str value.

(** The tagged value built for a supported value. *)
Definition DataValue_of (value : pyobj) : DataValue :=
  match value with
  | PyInt n => DataValue_long n
  | PyBool b => DataValue_long (Z.b2z b)
  | PyFloat x => DataValue_double x
  | PyStr s => DataValue_chars s
  | _ => DVEmpty
  end.

(** An integer that [<long>] converts. *)
Definition in_range (value : pyobj) : Prop :=
  match value with PyInt n => fits LONG_BITS n | _ => True end.

Global Instance in_range_dec value : Decision (in_range value).
Proof. destruct value; simpl; apply _. Defined.

(** How the loop ends: with the container filled, with the [OverflowError]
    of [<long>], or reading [dv] before any assignment. *)
Inductive loop_end :=
| Filled (p : Param)
| Overflow
| Unassigned.

Definition finish (e : loop_end) (σ : state) : result Param :=
  match e with
  | Filled p => Returns p σ
  | Overflow => Raises OverflowError σ
  | Unassigned => Undefined UnassignedPointer
  end.

(** How the call ends: the [OverflowError] of the loop is dropped and the
    empty container returned. *)
Definition finish_call (e : loop_end) (σ : state) : result Param :=
  match e with
  | Filled p => Returns p σ
  | Overflow => Returns ∅ σ
  | Unassigned => Undefined UnassignedPointer
  end.

(** The loop on the values alone: [cur] is the tagged value [dv] points to,
    if [dv] has been assigned. *)
Fixpoint fill (items : pydict) (p : Param) (cur : option DataValue) : loop_end :=
  match items with
  | [] => Filled p
  | (key, value) :: items' =>
      if supported value then
        if decide (in_range value)
        then fill items' (<[c_str key := DataValue_of value]> p) (Some (DataValue_of value))
        else Overflow
      else
        match cur with
        | Some d => fill items' (<[c_str key := d]> p) cur
        | None => Unassigned
        end
  end.

(** The cells the loop adds to the native heap, in the state they are in when
    the loop ends. *)
Fixpoint scratch (items : pydict) (cur : option DataValue) : list (option cell) :=
  match items with
  | [] => []
  | (key, value) :: items' =>
      if supported value then
        if decide (in_range value)
        then Some (CDataValue (DataValue_of value)) :: None
               :: scratch items' (Some (DataValue_of value))
        else []
      else
        match cur with
        | Some d => None :: scratch items' cur
        | None => []
        end
  end.

(** [dv] and what it points to. *)
Definition points_to (σ : state) (dv : option nat) (cur : option DataValue) : Prop :=
  match dv, cur with
  | Some a, Some d => natives σ !! a = Some (Some (CDataValue d))
  | None, None => True
  | _, _ => False
  end.

(** The Python object stored for a tagged value; none for another tag. *)
Definition pyobj_of (val : DataValue) : option pyobj :=
  match valueType val with
  | STRING_VALUE => Some (PyStr (toChar val))
  | INT_VALUE => Some (PyInt (cast_int val))
  | DOUBLE_VALUE => Some (PyFloat (cast_double val))
  | _ => None
  end.

(** The loop on the dictionary alone: the dictionary when the loop ends, and
    whether the loop got through all the keys. *)
Fixpoint collect (p : Param) (keys : list string) (d : pydict) : bool * pydict :=
  match keys with
  | [] => (true, d)
  | skey :: keys' =>
      match p !! skey ≫= pyobj_of with
      | Some o => collect p keys' (dict_set (c_str skey) o d)
      | None => (false, d)
      end
  end.

Definition collected (rv : nat) (r : bool * pydict) (σ : state) : result unit :=
  let σ' := mkState (<[rv := r.2]> (pyobjs σ)) (natives σ) in
  if r.1 then Returns () σ' else Raises TypeError σ'.

(** The kind of a scalar, on either side. A [bool] is an [int] at runtime. *)
Inductive kind := Text | Integer | Real.

Definition pykind (o : pyobj) : option kind :=
  match o with
  | PyStr _ => Some Text
  | PyInt _ | PyBool _ => Some Integer
  | PyFloat _ => Some Real
  | _ => None
  end.

Definition tagkind (t : ValueType) : option kind :=
  match t with
  | STRING_VALUE => Some Text
  | INT_VALUE => Some Integer
  | DOUBLE_VALUE => Some Real
  | _ => None
  end.

(** Every value passes one of the [isinstance] tests and every integer fits
    a C long. *)
Definition convertible (m : pydict) : Prop :=
  Forall (λ kv, supported kv.2 = true ∧ in_range kv.2) m.

(** The entries of the container for a convertible dictionary. *)
Definition converted (m : pydict) : list (string * DataValue) :=
  (λ kv, (c_str kv.1, DataValue_of kv.2)) <$> m.

Definition build (m : pydict) (p : Param) : Param :=
  foldl (λ p kv, <[c_str kv.1 := DataValue_of kv.2]> p) p m.

(** container→mapping after mapping→container, on the dictionary [dd]. *)
Definition roundtrip (dd : nat) : M nat :=
  p ← dictToParam dd;
  paramToDict p.

(** A text, integer or floating-point scalar. *)
Definition scalar (v : pyobj) : Prop :=
  match v with PyStr _ | PyInt _ | PyFloat _ => True | _ => False end.

(** A scalar that the C types in between can hold: an integer that fits a C
    [int], a text without zero byte, any float. *)
Definition faithful (v : pyobj) : Prop :=
  match v with
  | PyStr s => NUL_free s
  | PyInt n => fits INT_BITS n
  | PyFloat _ => True
  | _ => False
  end.

(** The round trip gives back the mapping [m]. *)
Definition round_trips (m : pydict) : Prop :=
  ∀ σ dd, pyobjs σ !! dd = Some m →
    ∃ rv σ' d, roundtrip dd σ = Returns rv σ' ∧
               pyobjs σ' !! rv = Some d ∧ dict_map d = dict_map m.

Global Instance scalar_dec v : Decision (scalar v).
Proof. destruct v; cbn; apply _. Defined.

Global Instance faithful_dec v : Decision (faithful v).
Proof. destruct v; cbn; apply _. Defined.

Global Instance dict_wf_dec d : Decision (dict_wf d).
Proof. unfold dict_wf. apply _. Defined.

Global Instance convertible_dec m : Decision (convertible m).
Proof. unfold convertible. apply _. Defined.

(** The dictionary of the specification's first example, a dictionary in
    one item, and strings with a zero byte inside. *)
Definition example_settings : pydict :=
  [("tolerance", PyFloat 0.05); ("iterations", PyInt 10); ("mode", PyStr "fast")].

Definition one_item (k : string) (v : pyobj) : state := mkState [[(k, v)]] [].

Definition a_NUL_x : string := "a" +:+ String NUL "x".
Definition a_NUL_y : string := "a" +:+ String NUL "y".

Definition settings_reordered : pydict :=
  [("mode", PyStr "fast"); ("tolerance", PyFloat 0.05); ("iterations", PyInt 10)].

(** mapping→container after container→mapping, on the container [p]. *)
Definition back_and_forth (p : Param) : M Param :=
  rv ← paramToDict p;
  dictToParam rv.

(** A tagged value that the Python objects and C types in between can hold:
    a text without zero byte, an integer that fits a C [int], any double. *)
Definition native_faithful (val : DataValue) : Prop :=
  match val with
  | DVString s => NUL_free s
  | DVInt n => fits INT_BITS n
  | DVDouble _ => True
  | _ => False
  end.

(** What the casts make of a converted value on the way to the container
    and back: an integer wrapped to a C [int], a boolean as that integer, a
    text cut at its first zero byte. *)
Definition normal (v : pyobj) : pyobj :=
  match v with
  | PyInt n => PyInt (wrap INT_BITS n)
  | PyBool b => PyInt (wrap INT_BITS (Z.b2z b))
  | PyStr s => PyStr (c_str s)
  | _ => v
  end.

(** [dv] is assigned before it is first read: the dictionary is empty, or
    the value of the first item enumerated passes one of the type tests. *)
Definition starts_assigned (m : pydict) : Prop :=
  match m with
  | [] => True
  | (_, value) :: _ => supported value = true
  end.

Global Instance starts_assigned_dec m : Decision (starts_assigned m).
Proof. destruct m as [|[k v] m]; cbn; apply _. Defined.

Global Instance native_faithful_dec val : Decision (native_faithful val).
Proof. destruct val; cbn; apply _. Defined.

(** A dictionary that the round trip accepts and changes. *)
Definition unfaithful_settings : pydict :=
  [("flag", PyBool true); ("n", PyInt (2 ^ 31 + 5)); (a_NUL_x, PyStr a_NUL_y)].

(** The cells of a piece of heap that are still allocated. *)
Definition live (cells : list (option cell)) : list cell := omap id cells.

(** No cell of a piece of heap is a live string. *)
Definition no_live_string (cells : list (option cell)) : Prop :=
  Forall (λ c, match c with Some (CString _) => False | _ => True end) cells.

End Vocabulary.

(** Side conditions on concrete inputs are decided by evaluation. *)
Ltac decide_by_eval := apply (bool_decide_unpack _); vm_compute; exact I.

(** * Properties *)

(** ** The heap operations on a state *)

Lemma lookup_snoc {A} (l : list A) (x : A) : (l ++ [x]) !! length l = Some x.
Proof. rewrite lookup_app_r by lia. by rewrite Nat.sub_diag. Qed.

Lemma insert_snoc {A} (l : list A) (x y : A) : <[length l := y]> (l ++ [x]) = l ++ [y].
Proof. rewrite insert_app_r_alt by lia. by rewrite Nat.sub_diag. Qed.

Lemma lookup_snoc_Some {A} (l : list A) (x y : A) i :
  l !! i = Some y → (l ++ [x]) !! i = Some y.
Proof. intros Hi. by rewrite lookup_app_l_Some with (x := y). Qed.

(** Running [m ≫= f] is running [m], then [f]. *)
Lemma bind_Returns {A B} (m : M A) (f : A → M B) σ a σ' :
  m σ = Returns a σ' → (m ≫= f) σ = f a σ'.
Proof. unfold mbind, M_bind. by intros ->. Qed.

Lemma bind_Raises {A B} (m : M A) (f : A → M B) σ e σ' :
  m σ = Raises e σ' → (m ≫= f) σ = Raises e σ'.
Proof. unfold mbind, M_bind. by intros ->. Qed.

Lemma bind_Undefined {A B} (m : M A) (f : A → M B) σ u :
  m σ = Undefined u → (m ≫= f) σ = Undefined u.
Proof. unfold mbind, M_bind. by intros ->. Qed.

(** ** What one iteration of [dictToParam] does *)

Section BodyFacts.
Context `{Platform}.

(** The insertion that ends an iteration, when [dv] points to a live tagged
    value: the key string is allocated, both pointers are read, the entry is
    set and the key string is deleted. *)
Lemma insertion_step key p a d σ :
  natives σ !! a = Some (Some (CDataValue d)) →
  (temps ← new (CString (c_str key));
   k ← deref_string (Some temps);
   d ← deref_DataValue (Some a);
   del temps ≫= λ _,
   mret (setValue k d p, Some a)) σ =
    Returns (<[c_str key := d]> p, Some a)
            (mkState (pyobjs σ) (natives σ ++ [None])).
Proof.
  intros Ha.
  unfold mbind, M_bind, mret, M_ret, new, deref_string, deref_DataValue, del, setValue.
  cbn [natives pyobjs].
  rewrite lookup_snoc; cbn [natives pyobjs].
  rewrite (lookup_snoc_Some _ _ _ _ Ha); cbn [natives pyobjs].
  rewrite lookup_snoc; cbn [natives pyobjs].
  by rewrite insert_snoc.
Qed.

Lemma insertion_step_unassigned key p σ :
  (temps ← new (CString (c_str key));
   k ← deref_string (Some temps);
   d ← deref_DataValue None;
   del temps ≫= λ _,
   mret (setValue k d p, @None nat)) σ = Undefined UnassignedPointer.
Proof.
  unfold mbind, M_bind, mret, M_ret, new, deref_string, deref_DataValue.
  cbn [natives pyobjs]. by rewrite lookup_snoc.
Qed.

Lemma body_supported key value p dv σ :
  supported value = true → in_range value →
  dictToParam_body key value p dv σ =
    Returns (<[c_str key := DataValue_of value]> p, Some (length (natives σ)))
            (mkState (pyobjs σ)
                     (natives σ ++ [Some (CDataValue (DataValue_of value)); None])).
Proof.
  intros Hs Hr. unfold dictToParam_body.
  destruct value; try discriminate Hs;
    cbn [isinstance_int_long isinstance_float isinstance_str cast_long
         cast_pydouble cast_chars in_range DataValue_of] in *.
  all: try rewrite (decide_True _ _ Hr).
  all: erewrite bind_Returns by reflexivity.
  all: do 2 (erewrite bind_Returns by reflexivity).
  all: erewrite insertion_step by apply lookup_snoc.
  all: cbn [natives pyobjs]; by rewrite <- app_assoc.
Qed.

Lemma body_overflow key n p dv σ :
  ¬ fits LONG_BITS n →
  dictToParam_body key (PyInt n) p dv σ = Raises OverflowError σ.
Proof.
  intros Hn. unfold dictToParam_body.
  cbn [isinstance_int_long cast_long]. by rewrite (decide_False _ _ Hn).
Qed.

Lemma body_reuse key value p a d σ :
  supported value = false →
  natives σ !! a = Some (Some (CDataValue d)) →
  dictToParam_body key value p (Some a) σ =
    Returns (<[c_str key := d]> p, Some a)
            (mkState (pyobjs σ) (natives σ ++ [None])).
Proof.
  intros Hs Ha. unfold dictToParam_body.
  destruct value; try discriminate Hs;
    cbn [isinstance_int_long isinstance_float isinstance_str].
  all: do 3 (erewrite bind_Returns by reflexivity).
  all: by apply insertion_step.
Qed.

Lemma body_unassigned key value p σ :
  supported value = false →
  dictToParam_body key value p None σ = Undefined UnassignedPointer.
Proof.
  intros Hs. unfold dictToParam_body.
  destruct value; try discriminate Hs;
    cbn [isinstance_int_long isinstance_float isinstance_str].
  all: do 3 (erewrite bind_Returns by reflexivity).
  all: apply insertion_step_unassigned.
Qed.

End BodyFacts.

(** ** What the loop of [dictToParam] does *)

Section LoopFacts.
Context `{Platform}.

Lemma dictToParam_loop_fill items : ∀ p dv cur σ,
  points_to σ dv cur →
  dictToParam_loop items p dv σ =
    finish (fill items p cur)
           (mkState (pyobjs σ) (natives σ ++ scratch items cur)).
Proof.
  induction items as [|[key value] items IH]; intros p dv cur σ Hdv.
  - destruct σ. cbn. by rewrite app_nil_r.
  - cbn [dictToParam_loop fill scratch].
    destruct (supported value) eqn:Hs.
    + destruct (decide (in_range value)) as [Hr|Hr].
      * erewrite bind_Returns by (by apply body_supported).
        cbv beta iota. rewrite (IH _ _ (Some (DataValue_of value))).
        -- cbn [natives pyobjs]. by rewrite <- app_assoc.
        -- cbn. rewrite lookup_app_r by lia. by rewrite Nat.sub_diag.
      * destruct value; try (by destruct Hr).
        erewrite bind_Raises by (by apply body_overflow).
        destruct σ. cbn. by rewrite app_nil_r.
    + destruct dv as [a|], cur as [d|]; try (by destruct Hdv).
      * erewrite bind_Returns by (by apply body_reuse).
        cbv beta iota. rewrite (IH _ _ (Some d)).
        -- cbn [natives pyobjs]. by rewrite <- app_assoc.
        -- cbn in *. by apply lookup_snoc_Some.
      * erewrite bind_Undefined by (by apply body_unassigned). done.
Qed.

(** [dictToParam] on the dictionary [dd]. *)
Lemma dictToParam_fill dd items σ :
  pyobjs σ !! dd = Some items →
  dictToParam dd σ =
    finish_call (fill items ∅ None)
                (mkState (pyobjs σ) (natives σ ++ scratch items None)).
Proof.
  intros Hdd. unfold dictToParam, unraisable.
  erewrite bind_Returns by (unfold dict_items; by rewrite Hdd).
  rewrite (dictToParam_loop_fill _ _ _ None) by done.
  by destruct (fill items ∅ None).
Qed.

End LoopFacts.

(** ** What the loop of [paramToDict] does *)

Section CollectFacts.
Context `{Platform}.

Lemma body_stores p rv skey val o d σ :
  p !! skey = Some val → pyobj_of val = Some o → pyobjs σ !! rv = Some d →
  paramToDict_body p rv skey σ =
    Returns () (mkState (<[rv := dict_set (c_str skey) o d]> (pyobjs σ)) (natives σ)).
Proof.
  intros Hk Ho Hrv. unfold paramToDict_body, getValue. rewrite Hk.
  erewrite bind_Returns by reflexivity.
  unfold pyobj_of in Ho. unfold dict_setitem.
  destruct (valueType val); try discriminate Ho; rewrite Hrv; congruence.
Qed.

Lemma body_raises p rv skey val σ :
  p !! skey = Some val → pyobj_of val = None →
  paramToDict_body p rv skey σ = Raises TypeError σ.
Proof.
  intros Hk Ho. unfold paramToDict_body, getValue. rewrite Hk.
  erewrite bind_Returns by reflexivity.
  unfold pyobj_of in Ho. by destruct (valueType val); try discriminate Ho.
Qed.

Lemma paramToDict_loop_collect p rv keys : ∀ d σ,
  pyobjs σ !! rv = Some d →
  Forall (λ k, is_Some (p !! k)) keys →
  paramToDict_loop p rv keys σ = collected rv (collect p keys d) σ.
Proof.
  induction keys as [|skey keys IH]; intros d σ Hrv Hkeys.
  - unfold collected. cbn. rewrite list_insert_id by done. by destruct σ.
  - apply Forall_cons in Hkeys as [[val Hval] Hkeys].
    cbn [paramToDict_loop collect]. rewrite Hval. cbn [mbind option_bind].
    destruct (pyobj_of val) as [o|] eqn:Ho.
    + erewrite bind_Returns by (by eapply body_stores).
      rewrite (IH (dict_set (c_str skey) o d)); [|by apply list_lookup_insert_eq, lookup_lt_Some with d|done].
      unfold collected. cbn [natives pyobjs]. by rewrite list_insert_insert_eq.
    + erewrite bind_Raises by (by eapply body_raises).
      unfold collected. cbn. rewrite list_insert_id by done. by destruct σ.
Qed.

Lemma getKeys_lookup (p : Param) : Forall (λ k, is_Some (p !! k)) (getKeys p).
Proof.
  apply Forall_forall. intros k Hk. unfold getKeys in Hk.
  apply list_elem_of_fmap in Hk as [[k' v] [-> Hkv]].
  apply elem_of_map_to_list in Hkv. by exists v.
Qed.

(** [paramToDict] on the container [p]: the new dictionary is the last
    Python object of the final state. *)
Lemma paramToDict_collect p σ :
  paramToDict p σ =
    if (collect p (getKeys p) []).1
    then Returns (length (pyobjs σ))
                 (mkState (pyobjs σ ++ [(collect p (getKeys p) []).2]) (natives σ))
    else Raises TypeError
                (mkState (pyobjs σ ++ [(collect p (getKeys p) []).2]) (natives σ)).
Proof.
  unfold paramToDict.
  erewrite bind_Returns by reflexivity.
  cbv beta. unfold mbind, M_bind.
  rewrite (paramToDict_loop_collect _ _ _ []);
    [|by apply lookup_snoc|by apply getKeys_lookup].
  unfold collected. cbn [natives pyobjs]. rewrite insert_snoc.
  by destruct (collect p (getKeys p) []) as [[] d].
Qed.

End CollectFacts.

(** ** C strings and C integers *)

Lemma c_str_idemp s : c_str (c_str s) = c_str s.
Proof.
  induction s as [|c s IH]; [done|]. cbn.
  destruct (Ascii.eqb c NUL) eqn:Hc; [done|]. cbn. by rewrite Hc, IH.
Qed.

Lemma c_str_NUL_free s : NUL_free (c_str s).
Proof. apply c_str_idemp. Qed.

Lemma wrap_fits w n : (0 < w)%Z → fits w n → wrap w n = n.
Proof.
  intros Hw [Hlo Hhi]. unfold wrap.
  assert (2 ^ w = 2 * 2 ^ (w - 1))%Z as Hpow.
  { rewrite <- Z.pow_succ_r by lia. f_equal. lia. }
  rewrite Z.mod_small by lia. lia.
Qed.

Lemma fits_mono w w' n : (0 < w)%Z → (w <= w')%Z → fits w n → fits w' n.
Proof.
  intros Hw Hle [Hlo Hhi].
  assert (2 ^ (w - 1) <= 2 ^ (w' - 1))%Z by (apply Z.pow_le_mono_r; lia).
  unfold fits. lia.
Qed.

(** ** Dictionaries *)

Lemma dict_map_dict_set k v d : dict_map (dict_set k v d) = <[k := v]> (dict_map d).
Proof.
  unfold dict_map. induction d as [|[k' v'] d IH]; [done|].
  cbn [dict_set]. destruct (decide (k' = k)) as [->|Hne].
  - rewrite !list_to_map_cons. by rewrite insert_insert_eq.
  - rewrite !list_to_map_cons, IH. by apply insert_insert_ne.
Qed.

Lemma dict_set_keys k v d k' :
  k' ∈ (dict_set k v d).*1 ↔ k' = k ∨ k' ∈ d.*1.
Proof.
  induction d as [|[k0 v0] d IH]; cbn [dict_set].
  - cbn. rewrite list_elem_of_singleton, elem_of_nil. tauto.
  - destruct (decide (k0 = k)) as [->|Hne]; rewrite !fmap_cons; cbn.
    + rewrite !elem_of_cons. tauto.
    + rewrite !elem_of_cons, IH. tauto.
Qed.

Lemma dict_set_wf k v d : dict_wf d → dict_wf (dict_set k v d).
Proof.
  unfold dict_wf. induction d as [|[k0 v0] d IH]; cbn [dict_set].
  - intros _. rewrite fmap_cons. apply NoDup_singleton.
  - rewrite fmap_cons. cbn. intros [Hk0 Hd]%NoDup_cons.
    destruct (decide (k0 = k)) as [->|Hne]; rewrite fmap_cons; cbn.
    + by apply NoDup_cons.
    + apply NoDup_cons. split; [|by apply IH].
      rewrite dict_set_keys. intros [?|?]; [by apply Hne|by apply Hk0].
Qed.


Lemma dict_length d : dict_wf d → length d = size (dict_map d).
Proof. intros Hd. unfold dict_map. by rewrite map_size_list_to_map. Qed.

(** ** The dictionary [paramToDict] builds *)

Section CollectProps.
Context `{Platform}.

Lemma collect_wf p keys : ∀ d, dict_wf d → dict_wf (collect p keys d).2.
Proof.
  induction keys as [|k keys IH]; intros d Hd; cbn [collect]; [done|].
  destruct (p !! k ≫= pyobj_of); [|done]. by apply IH, dict_set_wf.
Qed.

Lemma collect_complete p keys : ∀ d,
  Forall (λ k, is_Some (p !! k ≫= pyobj_of)) keys → (collect p keys d).1 = true.
Proof.
  induction keys as [|k keys IH]; intros d Hk; cbn [collect]; [done|].
  apply Forall_cons in Hk as [[o ->] Hk]. by apply IH.
Qed.

Lemma collect_incomplete p keys : ∀ d,
  Exists (λ k, p !! k ≫= pyobj_of = None) keys → (collect p keys d).1 = false.
Proof.
  induction keys as [|k keys IH]; intros d Hk; cbn [collect].
  - by apply Exists_nil in Hk.
  - destruct (p !! k ≫= pyobj_of) eqn:Ho; [|done].
    apply Exists_cons in Hk as [Hk|Hk]; [congruence|by apply IH].
Qed.

Lemma collect_lookup p keys : ∀ d k,
  Forall NUL_free keys →
  Forall (λ k, is_Some (p !! k ≫= pyobj_of)) keys →
  dict_map (collect p keys d).2 !! k =
    if decide (k ∈ keys) then p !! k ≫= pyobj_of else dict_map d !! k.
Proof.
  induction keys as [|k0 keys IH]; intros d k Hnul Hk; cbn [collect].
  - by rewrite decide_False by apply not_elem_of_nil.
  - apply Forall_cons in Hnul as [Hk0 Hnul].
    apply Forall_cons in Hk as [[o Ho] Hk].
    rewrite Ho, IH, Hk0 by done.
    destruct (decide (k ∈ keys)) as [Hin|Hin].
    + by rewrite decide_True by (by right).
    + rewrite dict_map_dict_set. destruct (decide (k = k0)) as [->|Hne].
      * rewrite decide_True by (by left). by rewrite lookup_insert_eq.
      * rewrite decide_False by (rewrite elem_of_cons; tauto).
        by rewrite lookup_insert_ne.
Qed.


(** On a container whose keys have no zero byte and whose values all carry
    one of the three tags, the loop gets through and the dictionary maps
    each key of the container to the converted value. *)
Lemma collect_all (p : Param) :
  map_Forall (λ k val, NUL_free k ∧ is_Some (pyobj_of val)) p →
  (collect p (getKeys p) []).1 = true ∧
  dict_map (collect p (getKeys p) []).2 = omap pyobj_of p ∧
  dict_wf (collect p (getKeys p) []).2.
Proof.
  intros Hp.
  assert (Forall NUL_free (getKeys p)) as Hnul.
  { apply Forall_forall. intros k [[k' v] [-> Hkv]]%list_elem_of_fmap.
    apply elem_of_map_to_list in Hkv. by apply (Hp _ _ Hkv). }
  assert (Forall (λ k, is_Some (p !! k ≫= pyobj_of)) (getKeys p)) as Hsome.
  { apply Forall_forall. intros k [[k' v] [-> Hkv]]%list_elem_of_fmap.
    apply elem_of_map_to_list in Hkv. cbn. rewrite Hkv. by apply (Hp _ _ Hkv). }
  split_and!.
  - by apply collect_complete.
  - apply map_eq. intros k. rewrite collect_lookup, lookup_omap by done.
    destruct (decide (k ∈ getKeys p)) as [Hin|Hin]; [done|].
    destruct (p !! k) as [val|] eqn:Hval; [|done].
    destruct Hin. apply list_elem_of_fmap. exists (k, val).
    split; [done|]. by apply elem_of_map_to_list.
  - apply collect_wf. unfold dict_wf. apply NoDup_nil_2.
Qed.

End CollectProps.

(** ** The container [dictToParam] builds *)


Lemma DataValue_of_kind v :
  supported v = true → tagkind (valueType (DataValue_of v)) = pykind v.
Proof. by destruct v. Qed.

Section FillProps.
Context `{Platform}.

Lemma build_cons k v m p :
  build ((k, v) :: m) p = build m (<[c_str k := DataValue_of v]> p).
Proof. done. Qed.

Lemma fill_convertible m : ∀ p cur,
  convertible m → fill m p cur = Filled (build m p).
Proof.
  induction m as [|[k v] m IH]; intros p cur Hm; [done|].
  apply Forall_cons in Hm as [[Hs Hr] Hm]. cbn in Hs, Hr.
  cbn [fill]. rewrite build_cons, Hs, decide_True by done. by apply IH.
Qed.

Lemma build_distinct m : ∀ p,
  NoDup (converted m).*1 → build m p = list_to_map (converted m) ∪ p.
Proof.
  induction m as [|[k v] m IH]; intros p Hm.
  - cbn. by rewrite (left_id_L ∅ (∪)).
  - unfold converted in Hm. rewrite !fmap_cons in Hm. cbn in Hm.
    apply NoDup_cons in Hm as [Hk Hm].
    rewrite build_cons, IH by done. unfold converted at 2. rewrite fmap_cons, list_to_map_cons.
    cbn. rewrite <- insert_union_l. symmetry. apply insert_union_r.
    by apply not_elem_of_list_to_map_1.
Qed.

Lemma build_is_Some m : ∀ p k,
  is_Some (build m p !! k) ↔ k ∈ (converted m).*1 ∨ is_Some (p !! k).
Proof.
  induction m as [|[k0 v0] m IH]; intros p k.
  - cbn. rewrite elem_of_nil. tauto.
  - rewrite build_cons, IH. unfold converted. rewrite !fmap_cons, elem_of_cons. cbn.
    rewrite lookup_insert_is_Some. destruct (decide (c_str k0 = k)); naive_solver.
Qed.

Lemma fill_overflow m : ∀ p cur,
  Forall (λ kv, supported kv.2 = true) m →
  Exists (λ kv, ¬ in_range kv.2) m →
  fill m p cur = Overflow.
Proof.
  induction m as [|[k v] m IH]; intros p cur Hs Hr.
  - by apply Exists_nil in Hr.
  - apply Forall_cons in Hs as [Hs Hm]. cbn in Hs. cbn [fill]. rewrite Hs.
    destruct (decide (in_range v)) as [Hv|Hv]; [|done].
    apply Exists_cons in Hr as [Hr|Hr]; [by destruct Hr|]. by apply IH.
Qed.

(** Once [dv] is assigned, only [<long>] can stop the loop, and the loop
    leaves alone the keys it does not enumerate. *)
Lemma fill_assigned m : ∀ p d,
  Forall (λ kv, in_range kv.2) m →
  ∃ p', fill m p (Some d) = Filled p' ∧
        ∀ k, k ∉ (converted m).*1 → p' !! k = p !! k.
Proof.
  induction m as [|[k0 v0] m IH]; intros p d Hm.
  - by exists p.
  - apply Forall_cons in Hm as [Hr Hm]. cbn in Hr. cbn [fill].
    unfold converted. rewrite !fmap_cons. cbn.
    destruct (supported v0); [rewrite decide_True by done|].
    all: edestruct IH as (p' & -> & Hp'); [done|].
    all: exists p'; split; [done|]; intros k [? ?]%not_elem_of_cons.
    all: rewrite Hp' by done; by rewrite lookup_insert_ne.
Qed.


End FillProps.

(** ** Round trip *)

Section RoundTrip.
Context `{Platform}.

Lemma faithful_convertible v : faithful v → supported v = true ∧ in_range v.
Proof.
  destruct v; try done. intros Hn. split; [done|].
  apply (fits_mono INT_BITS); auto using INT_BITS_pos, INT_le_LONG.
Qed.

Lemma pyobj_of_DataValue_of v : faithful v → pyobj_of (DataValue_of v) = Some v.
Proof.
  destruct v; try done; cbn; intros Hv.
  - unfold pyobj_of. cbn. by rewrite wrap_fits by auto using INT_BITS_pos.
  - unfold pyobj_of. cbn. by rewrite c_str_idemp, Hv.
Qed.

Lemma converted_NUL_free m :
  Forall (λ kv, NUL_free kv.1) m → converted m = prod_map id DataValue_of <$> m.
Proof.
  intros Hm. unfold converted. apply Forall_fmap_ext_1.
  eapply Forall_impl; [done|]. intros [k v] Hk. cbn in *. by rewrite Hk.
Qed.

Lemma converted_keys m :
  Forall (λ kv, NUL_free kv.1) m → (converted m).*1 = m.*1.
Proof.
  intros Hm. rewrite converted_NUL_free by done.
  rewrite <- list_fmap_compose. apply list_fmap_ext. by intros ? [??] _.
Qed.

(** [dictToParam] on a convertible dictionary whose keys stay distinct as C
    strings. *)
Lemma dictToParam_converted σ dd m :
  pyobjs σ !! dd = Some m → convertible m → NoDup (converted m).*1 →
  dictToParam dd σ =
    Returns (list_to_map (converted m))
            (mkState (pyobjs σ) (natives σ ++ scratch m None)).
Proof.
  intros Hdd Hm Hnd. rewrite (dictToParam_fill _ _ _ Hdd).
  rewrite fill_convertible, build_distinct by done.
  by rewrite (right_id_L ∅ (∪)).
Qed.

End RoundTrip.

(** ** The two conversions on whole inputs *)

Section Conversions.
Context `{Platform}.

Lemma pyobj_of_None val : pyobj_of val = None ↔ tagkind (valueType val) = None.
Proof. unfold pyobj_of. by destruct (valueType val). Qed.


(** [paramToDict] ends in one of two ways, and either way the only change
    to the state is one more dictionary. *)
Lemma paramToDict_outcome p σ :
  ∃ d, let σ' := mkState (pyobjs σ ++ [d]) (natives σ) in
       paramToDict p σ = Returns (length (pyobjs σ)) σ' ∨
       paramToDict p σ = Raises TypeError σ'.
Proof.
  rewrite paramToDict_collect. exists (collect p (getKeys p) []).2. cbn zeta.
  destruct (collect p (getKeys p) []).1; [by left|by right].
Qed.

Lemma paramToDict_valid p σ :
  map_Forall (λ k val, NUL_free k ∧ is_Some (tagkind (valueType val))) p →
  ∃ d, paramToDict p σ =
         Returns (length (pyobjs σ)) (mkState (pyobjs σ ++ [d]) (natives σ)) ∧
       dict_wf d ∧ dict_map d = omap pyobj_of p.
Proof.
  intros Hp. rewrite paramToDict_collect.
  destruct (collect_all p) as (Hok & Hmap & Hwf).
  { intros k val Hk. destruct (Hp _ _ Hk) as [? Htag]. split; [done|].
    destruct (pyobj_of val) eqn:Ho; [done|].
    apply pyobj_of_None in Ho. rewrite Ho in Htag. by destruct Htag. }
  exists (collect p (getKeys p) []).2. by rewrite Hok.
Qed.


Lemma omap_pyobj_of_dom (p : Param) :
  map_Forall (λ k val, is_Some (tagkind (valueType val))) p →
  dom (omap pyobj_of p) = dom p.
Proof.
  intros Hp. apply set_eq. intros k. rewrite !elem_of_dom, lookup_omap.
  destruct (p !! k) as [val|] eqn:Hk; cbn; [|done].
  destruct (pyobj_of val) eqn:Ho.
  - split; eauto.
  - apply pyobj_of_None in Ho. specialize (Hp _ _ Hk). cbn in Hp.
    rewrite Ho in Hp. by destruct Hp.
Qed.

(** [dictToParam] ends in one of two ways, and leaves the Python objects
    as they are when it returns. *)
Lemma dictToParam_outcome dd m σ :
  pyobjs σ !! dd = Some m →
  (∃ p ns, dictToParam dd σ = Returns p (mkState (pyobjs σ) ns)) ∨
  dictToParam dd σ = Undefined UnassignedPointer.
Proof.
  intros Hdd. rewrite (dictToParam_fill _ _ _ Hdd).
  destruct (fill m ∅ None); cbn; eauto.
Qed.


End Conversions.

(** ** Facts for the order of enumeration and for reused values *)

Section OrderFacts.
Context `{Platform}.

Lemma dictToParam_overflow σ dd m :
  pyobjs σ !! dd = Some m →
  Forall (λ kv, supported kv.2 = true) m →
  Exists (λ kv, ¬ in_range kv.2) m →
  dictToParam dd σ =
    Returns ∅ (mkState (pyobjs σ) (natives σ ++ scratch m None)).
Proof.
  intros Hdd Hs Hr. rewrite (dictToParam_fill _ _ _ Hdd).
  by rewrite fill_overflow.
Qed.

(** Two enumerations of one mapping give one container, when every value is
    converted and the keys stay distinct as C strings. *)
Lemma converted_order m1 m2 :
  dict_wf m1 → dict_wf m2 → dict_map m1 = dict_map m2 →
  NoDup (converted m1).*1 →
  NoDup (converted m2).*1 ∧
  (list_to_map (converted m1) : Param) = list_to_map (converted m2).
Proof.
  intros Hwf1 Hwf2 Hmap Hnd.
  assert (m1 ≡ₚ m2) as Hperm by (by apply list_to_map_inj).
  assert (converted m1 ≡ₚ converted m2) as Hconv
    by (unfold converted; by rewrite Hperm).
  split; [by rewrite <- Hconv|]. by apply list_to_map_proper.
Qed.

Lemma fill_snoc_convertible pre k0 v0 rest : ∀ p cur,
  convertible (pre ++ [(k0, v0)]) →
  fill (pre ++ (k0, v0) :: rest) p cur =
    fill rest (build (pre ++ [(k0, v0)]) p) (Some (DataValue_of v0)).
Proof.
  induction pre as [|[k1 v1] pre IH]; intros p cur Hc.
  - apply Forall_cons in Hc as [[Hs Hr] _]. cbn in Hs, Hr.
    cbn [app fill]. by rewrite Hs, decide_True.
  - cbn [app] in Hc. apply Forall_cons in Hc as [[Hs Hr] Hc]. cbn in Hs, Hr.
    cbn [app fill]. rewrite Hs, decide_True by done.
    rewrite build_cons. by apply IH.
Qed.

(** Items whose values pass no type test leave [dv] as it is. *)
Lemma fill_unsupported mid rest : ∀ p d,
  Forall (λ kv, supported kv.2 = false) mid →
  ∃ p', fill (mid ++ rest) p (Some d) = fill rest p' (Some d).
Proof.
  induction mid as [|[k v] mid IH]; intros p d Hmid; [by exists p|].
  apply Forall_cons in Hmid as [Hs Hmid]. cbn in Hs.
  cbn [app fill]. rewrite Hs. by apply IH.
Qed.

End OrderFacts.

(** ** What the two conversions store *)

Section StoreFacts.
Context `{Platform}.

Lemma getKeys_elem (p : Param) k : k ∈ getKeys p ↔ is_Some (p !! k).
Proof.
  unfold getKeys. rewrite list_elem_of_fmap. split.
  - intros [[k' val] [-> Hk]]. apply elem_of_map_to_list in Hk. by exists val.
  - intros [val Hk]. exists (k, val). split; [done|]. by apply elem_of_map_to_list.
Qed.

Lemma fill_dom m : ∀ p cur p',
  fill m p cur = Filled p' →
  dom p' = list_to_set (c_str <$> m.*1) ∪ dom p.
Proof.
  induction m as [|[k v] m IH]; intros p cur p' Hfill.
  - injection Hfill as <-. cbn. by rewrite (left_id_L ∅ (∪)).
  - cbn [fill] in Hfill. rewrite !fmap_cons. cbn [fst list_to_set].
    destruct (supported v).
    + destruct (decide (in_range v)); [|done].
      rewrite (IH _ _ _ Hfill), dom_insert_L. set_solver.
    + destruct cur as [d|]; [|done].
      rewrite (IH _ _ _ Hfill), dom_insert_L. set_solver.
Qed.

Lemma fill_frame m : ∀ p cur p' k,
  fill m p cur = Filled p' → k ∉ c_str <$> m.*1 → p' !! k = p !! k.
Proof.
  induction m as [|[k0 v0] m IH]; intros p cur p' k Hfill Hk.
  - by injection Hfill as <-.
  - cbn [fill] in Hfill. rewrite !fmap_cons in Hk. cbn in Hk.
    apply not_elem_of_cons in Hk as [Hne Hk]. destruct (supported v0).
    + destruct (decide (in_range v0)); [|done].
      rewrite (IH _ _ _ _ Hfill Hk). by rewrite lookup_insert_ne.
    + destruct cur as [d|]; [|done].
      rewrite (IH _ _ _ _ Hfill Hk). by rewrite lookup_insert_ne.
Qed.

Lemma fill_app pre rest : ∀ p cur p',
  fill (pre ++ rest) p cur = Filled p' →
  ∃ p1 cur1, fill pre p cur = Filled p1 ∧ fill rest p1 cur1 = Filled p'.
Proof.
  induction pre as [|[k v] pre IH]; intros p cur p' Hfill.
  - by exists p, cur.
  - cbn [app fill] in *. destruct (supported v).
    + destruct (decide (in_range v)); [|done]. by apply IH.
    + destruct cur as [d|]; [|done]. by apply IH.
Qed.

Lemma fill_in_range m : ∀ p cur,
  Forall (λ kv, in_range kv.2) m → fill m p cur ≠ Overflow.
Proof.
  induction m as [|[k v] m IH]; intros p cur Hm; [done|].
  apply Forall_cons in Hm as [Hr Hm]. cbn in Hr. cbn [fill].
  destruct (supported v); [rewrite decide_True by done; by apply IH|].
  destruct cur; [by apply IH|done].
Qed.

(** The entry under a key is the value built for the last item with that
    key, when the value of that item passed a type test. *)
Lemma fill_last_item pre post k v : ∀ p cur p',
  fill (pre ++ (k, v) :: post) p cur = Filled p' →
  supported v = true →
  c_str k ∉ c_str <$> post.*1 →
  p' !! c_str k = Some (DataValue_of v).
Proof.
  intros p cur p' Hfill Hs Hk.
  apply fill_app in Hfill as (p1 & cur1 & _ & Hfill).
  cbn [fill] in Hfill. rewrite Hs in Hfill.
  destruct (decide (in_range v)); [|done].
  rewrite (fill_frame _ _ _ _ _ Hfill Hk). by rewrite lookup_insert_eq.
Qed.



End StoreFacts.

(** * The claims of the specification *)

(** C1 (amended): for every mapping whose keys and text values have no zero
    byte and whose integers fit a C int, converting the mapping with
    [dictToParam] and the result back with [paramToDict] returns a new
    dictionary that is equal to the mapping: the same keys, and under each
    key the same value of the same scalar kind. *)
Theorem roundtrip_restores `{Platform} (m : pydict) :
  dict_wf m →
  Forall (λ kv, NUL_free kv.1 ∧ faithful kv.2) m →
  round_trips m.
Proof.
  intros Hwf Hm σ dd Hdd.
  assert (Forall (λ kv, NUL_free kv.1) m) as Hkeys.
  { eapply Forall_impl; [exact Hm|]. by intros ? [??]. }
  assert (convertible m) as Hconv.
  { eapply Forall_impl; [exact Hm|]. intros ? [??]. by apply faithful_convertible. }
  assert (list_to_map (converted m) = DataValue_of <$> dict_map m) as Hp.
  { rewrite converted_NUL_free by done. apply list_to_map_fmap. }
  unfold roundtrip.
  erewrite bind_Returns
    by (apply dictToParam_converted; [done..|by rewrite converted_keys]).
  rewrite paramToDict_collect. cbn [pyobjs natives].
  destruct (collect_all (list_to_map (converted m))) as (Hok & Hmap & _).
  { intros k val Hk%elem_of_list_to_map_2.
    apply list_elem_of_fmap in Hk as [[k0 v0] [[= -> ->] Hin]].
    rewrite Forall_forall in Hm. destruct (Hm _ Hin) as [_ Hv]. cbn in *.
    split; [apply c_str_NUL_free|]. by rewrite pyobj_of_DataValue_of. }
  rewrite Hok. eexists _, _, _. split; [done|]. cbn [pyobjs].
  split; [apply lookup_snoc|].
  rewrite Hmap, Hp. apply map_eq. intros k.
  rewrite lookup_omap, lookup_fmap.
  destruct (dict_map m !! k) as [v|] eqn:Hv; [|done]. cbn.
  apply elem_of_list_to_map_2 in Hv.
  rewrite Forall_forall in Hm. destruct (Hm _ Hv) as [_ Hf].
  by apply pyobj_of_DataValue_of.
Qed.

Lemma roundtrip_restores_witness :
  dict_wf example_settings ∧
  Forall (λ kv, NUL_free kv.1 ∧ @faithful LP64 kv.2) example_settings ∧
  @round_trips LP64 example_settings.
Proof.
  assert (dict_wf example_settings) as Hwf by decide_by_eval.
  assert (Forall (λ kv, NUL_free kv.1 ∧ @faithful LP64 kv.2) example_settings)
    as Hm by decide_by_eval.
  split_and!; [exact Hwf|exact Hm|].
  exact (@roundtrip_restores LP64 example_settings Hwf Hm).
Defined.

(** C1, as stated, fails: an integer that fits a C long but not a C int
    comes back wrapped; an integer that does not fit a C long does not come
    back at all, since [dictToParam] drops the [OverflowError] and returns
    the empty container; and a text or a key with a zero byte comes back cut
    at that byte. *)
Lemma roundtrip_counterexample :
  scalar (PyInt (2 ^ 31)) ∧
  @roundtrip LP64 0 (one_item "n" (PyInt (2 ^ 31))) =
    Returns 1 (mkState [[("n", PyInt (2 ^ 31))]; [("n", PyInt (- 2 ^ 31))]]
                       [Some (CDataValue (DVInt (2 ^ 31))); None]) ∧
  @roundtrip ILP32 0 (one_item "n" (PyInt (2 ^ 31))) =
    Returns 1 (mkState [[("n", PyInt (2 ^ 31))]; []] []) ∧
  @roundtrip LP64 0 (one_item "s" (PyStr a_NUL_x)) =
    Returns 1 (mkState [[("s", PyStr a_NUL_x)]; [("s", PyStr "a")]]
                       [Some (CDataValue (DVString "a")); None]) ∧
  @roundtrip LP64 0 (one_item a_NUL_x (PyInt 1)) =
    Returns 1 (mkState [[(a_NUL_x, PyInt 1)]; [("a", PyInt 1)]]
                       [Some (CDataValue (DVInt 1)); None]) ∧
  ¬ @round_trips LP64 [("n", PyInt (2 ^ 31))] ∧
  ¬ @round_trips ILP32 [("n", PyInt (2 ^ 31))].
Proof.
  split_and!.
  1: done.
  1-4: vm_compute; reflexivity.
  - intros Hrt.
    destruct (Hrt (one_item "n" (PyInt (2 ^ 31))) 0 eq_refl) as (rv & σ' & d & Hrun & Hd & Heq).
    vm_compute in Hrun. injection Hrun as <- <-.
    vm_compute in Hd. injection Hd as <-.
    apply (f_equal (λ mp : gmap string pyobj, mp !! "n")) in Heq.
    vm_compute in Heq. discriminate Heq.
  - intros Hrt.
    destruct (Hrt (one_item "n" (PyInt (2 ^ 31))) 0 eq_refl) as (rv & σ' & d & Hrun & Hd & Heq).
    vm_compute in Hrun. injection Hrun as <- <-.
    vm_compute in Hd. injection Hd as <-.
    apply (f_equal (λ mp : gmap string pyobj, mp !! "n")) in Heq.
    vm_compute in Heq. discriminate Heq.
Qed.

(** C2 (amended): a boolean value does not make [dictToParam] fail. For
    every mapping whose values are texts, floats, booleans and integers that
    fit a C long, [dictToParam] raises no error: it returns a container, and
    the container has an entry under the key of each boolean. *)
Theorem boolean_entry_accepted `{Platform} σ dd (m : pydict) k b :
  pyobjs σ !! dd = Some m →
  convertible m →
  (k, PyBool b) ∈ m →
  ∃ p σ', dictToParam dd σ = Returns p σ' ∧ is_Some (p !! c_str k).
Proof.
  intros Hdd Hm Hin.
  rewrite (dictToParam_fill _ _ _ Hdd), fill_convertible by done.
  eexists _, _. split; [done|]. apply build_is_Some. left.
  apply list_elem_of_fmap. exists (c_str k, DataValue_of (PyBool b)).
  split; [done|]. apply list_elem_of_fmap. by exists (k, PyBool b).
Qed.

Lemma boolean_entry_accepted_witness :
  pyobjs (one_item "flag" (PyBool true)) !! 0 = Some [("flag", PyBool true)] ∧
  @convertible LP64 [("flag", PyBool true)] ∧
  ("flag", PyBool true) ∈ [("flag", PyBool true)] ∧
  ∃ p σ', @dictToParam LP64 0 (one_item "flag" (PyBool true)) = Returns p σ' ∧
          is_Some (p !! c_str "flag").
Proof.
  assert (@convertible LP64 [("flag", PyBool true)]) as Hm by decide_by_eval.
  assert (("flag", PyBool true) ∈ [("flag", PyBool true)]) as Hin
    by apply list_elem_of_here.
  split_and!; [reflexivity|exact Hm|exact Hin|].
  exact (@boolean_entry_accepted LP64 (one_item "flag" (PyBool true)) 0
           [("flag", PyBool true)] "flag" true eq_refl Hm Hin).
Defined.

(** C2, as stated, fails on the mapping of the specification's second
    example: [dictToParam] returns a container, with the boolean stored as
    the integer 1. *)
Lemma rejection_counterexample :
  ¬ scalar (PyBool true) ∧
  @dictToParam LP64 0 (one_item "flag" (PyBool true)) =
    Returns {["flag" := DVInt 1]}
            (mkState [[("flag", PyBool true)]] [Some (CDataValue (DVInt 1)); None]) ∧
  @dictToParam ILP32 0 (one_item "flag" (PyBool true)) =
    Returns {["flag" := DVInt 1]}
            (mkState [[("flag", PyBool true)]] [Some (CDataValue (DVInt 1)); None]).
Proof. split_and!; [by intros []|vm_compute; done..]. Qed.

(** C3 (amended): for every container that holds a value whose tag is not
    one of STRING_VALUE, INT_VALUE and DOUBLE_VALUE, [paramToDict] fails.
    What reaches the caller is the [TypeError] that the runtime raises for
    [raise "not implemented !"], a string being no exception; it names
    neither a key nor a type. No dictionary is returned, and no value is
    stored under another type. *)
Theorem unsupported_tag_raises `{Platform} (p : Param) σ k val :
  p !! k = Some val →
  tagkind (valueType val) = None →
  ∃ d, paramToDict p σ =
         Raises TypeError (mkState (pyobjs σ ++ [d]) (natives σ)).
Proof.
  intros Hk Htag. rewrite paramToDict_collect.
  exists (collect p (getKeys p) []).2.
  rewrite collect_incomplete; [done|].
  apply Exists_exists. exists k. split.
  - apply list_elem_of_fmap. exists (k, val). split; [done|].
    by apply elem_of_map_to_list.
  - rewrite Hk. cbn. by apply pyobj_of_None.
Qed.

Lemma unsupported_tag_raises_witness :
  ({["k" := DVEmpty]} : Param) !! "k" = Some DVEmpty ∧
  tagkind (valueType DVEmpty) = None ∧
  ∃ d, @paramToDict LP64 {["k" := DVEmpty]} (mkState [] []) =
         Raises TypeError (mkState ([] ++ [d]) []).
Proof.
  assert (({["k" := DVEmpty]} : Param) !! "k" = Some DVEmpty) as Hk
    by (vm_compute; reflexivity).
  split_and!; [exact Hk|reflexivity|].
  exact (@unsupported_tag_raises LP64 {["k" := DVEmpty]} (mkState [] []) "k"
           DVEmpty Hk eq_refl).
Defined.

(** C3, as stated, fails: two containers whose offending entries differ in
    key and in type end with the same error and in the same state, so the
    error identifies neither. *)
Lemma error_identification_counterexample :
  ("a" : string) ≠ "b" ∧
  valueType DVEmpty ≠ valueType (DVIntList [1%Z]) ∧
  @paramToDict LP64 {["a" := DVEmpty]} (mkState [] []) =
    Raises TypeError (mkState [[]] []) ∧
  @paramToDict LP64 {["b" := DVIntList [1%Z]]} (mkState [] []) =
    Raises TypeError (mkState [[]] []).
Proof. split_and!; [done|done|vm_compute; done..]. Qed.

(** C4 (amended): [paramToDict], on a container whose values all carry one
    of the three tags and whose keys have no zero byte, returns a dictionary
    with as many entries as the container and the same keys; [dictToParam],
    on a mapping whose values are all converted (texts, floats, integers
    that fit a C long) and whose keys have no zero byte, returns a container
    with as many entries as the mapping and the same keys; the empty mapping
    gives the empty container, and that one the empty mapping. *)
Theorem cardinality_preserved `{Platform} :
  (∀ (p : Param) σ,
     map_Forall (λ k val, NUL_free k ∧ is_Some (tagkind (valueType val))) p →
     ∃ d, paramToDict p σ =
            Returns (length (pyobjs σ)) (mkState (pyobjs σ ++ [d]) (natives σ)) ∧
          dict_wf d ∧ length d = size p ∧ dom (dict_map d) = dom p) ∧
  (∀ σ dd (m : pydict),
     pyobjs σ !! dd = Some m → dict_wf m → convertible m →
     Forall (λ kv, NUL_free kv.1) m →
     ∃ p σ', dictToParam dd σ = Returns p σ' ∧
             size p = length m ∧ dom p = dom (dict_map m)) ∧
  (∀ σ dd,
     pyobjs σ !! dd = Some [] →
     dictToParam dd σ = Returns ∅ σ ∧
     paramToDict ∅ σ =
       Returns (length (pyobjs σ)) (mkState (pyobjs σ ++ [[]]) (natives σ))).
Proof.
  split_and!.
  - intros p σ Hp. destruct (paramToDict_valid p σ Hp) as (d & Hrun & Hwf & Hmap).
    assert (dom (dict_map d) = dom p) as Hdom.
    { rewrite Hmap. apply omap_pyobj_of_dom.
      intros k val Hk. by destruct (Hp _ _ Hk). }
    exists d. split_and!; try done.
    by rewrite dict_length, <- (size_dom (D := gset string)), Hdom, size_dom.
  - intros σ dd m Hdd Hwf Hm Hkeys.
    assert ((converted m).*1 = m.*1) as Hck by (by apply converted_keys).
    rewrite (dictToParam_converted _ _ _ Hdd) by (by rewrite ?Hck).
    eexists _, _. split_and!; [done| |].
    + rewrite map_size_list_to_map by (by rewrite Hck).
      unfold converted. by rewrite length_fmap.
    + unfold dict_map. by rewrite !dom_list_to_map_L, Hck.
  - intros σ dd Hdd. split.
    + rewrite (dictToParam_fill _ _ _ Hdd). destruct σ. cbn. by rewrite app_nil_r.
    + rewrite paramToDict_collect. unfold getKeys. by rewrite map_to_list_empty.
Qed.

Lemma cardinality_preserved_witness :
  (∃ d, @paramToDict LP64 {["mode" := DVString "fast"]} (mkState [] []) =
          Returns 0 (mkState ([] ++ [d]) []) ∧
        dict_wf d ∧ length d = size ({["mode" := DVString "fast"]} : Param) ∧
        dom (dict_map d) = dom ({["mode" := DVString "fast"]} : Param)) ∧
  (∃ p σ', @dictToParam LP64 0 (mkState [example_settings] []) = Returns p σ' ∧
           size p = length example_settings ∧
           dom p = dom (dict_map example_settings)) ∧
  (@dictToParam LP64 0 (mkState [[]] []) = Returns ∅ (mkState [[]] []) ∧
   @paramToDict LP64 ∅ (mkState [[]] []) = Returns 1 (mkState ([[]] ++ [[]]) [])).
Proof.
  assert (map_Forall (λ k val, NUL_free k ∧ is_Some (tagkind (valueType val)))
            ({["mode" := DVString "fast"]} : Param)) as Hp.
  { apply map_Forall_singleton. split; [reflexivity|by eexists]. }
  assert (dict_wf example_settings) as Hwf by decide_by_eval.
  assert (@convertible LP64 example_settings) as Hm by decide_by_eval.
  assert (Forall (λ kv, NUL_free kv.1) example_settings) as Hkeys
    by decide_by_eval.
  split; [|split].
  - exact (proj1 (@cardinality_preserved LP64) _ (mkState [] []) Hp).
  - exact (proj1 (proj2 (@cardinality_preserved LP64))
             (mkState [example_settings] []) 0 example_settings
             eq_refl Hwf Hm Hkeys).
  - exact (proj2 (proj2 (@cardinality_preserved LP64)) (mkState [[]] []) 0 eq_refl).
Defined.

(** C4, as stated, fails: an integer that does not fit a C long makes
    [dictToParam] return the empty container for a mapping of one entry (the
    [OverflowError] is dropped); and keys that differ only after a zero byte
    become one key, in either direction. *)
Lemma cardinality_counterexample :
  scalar (PyInt (2 ^ 63)) ∧
  @dictToParam LP64 0 (one_item "n" (PyInt (2 ^ 63))) =
    Returns ∅ (one_item "n" (PyInt (2 ^ 63))) ∧
  @dictToParam ILP32 0 (one_item "n" (PyInt (2 ^ 31))) =
    Returns ∅ (one_item "n" (PyInt (2 ^ 31))) ∧
  dict_wf [(a_NUL_x, PyInt 1); (a_NUL_y, PyInt 2)] ∧
  @dictToParam LP64 0 (mkState [[(a_NUL_x, PyInt 1); (a_NUL_y, PyInt 2)]] []) =
    Returns {["a" := DVInt 2]}
            (mkState [[(a_NUL_x, PyInt 1); (a_NUL_y, PyInt 2)]]
                     [Some (CDataValue (DVInt 1)); None;
                      Some (CDataValue (DVInt 2)); None]) ∧
  size ({[a_NUL_x := DVInt 1; a_NUL_y := DVInt 2]} : Param) = 2 ∧
  @paramToDict LP64 {[a_NUL_x := DVInt 1; a_NUL_y := DVInt 2]} (mkState [] []) =
    Returns 0 (mkState [[("a", PyInt 1)]] []).
Proof.
  split_and!.
  1: done.
  3: decide_by_eval.
  all: vm_compute; reflexivity.
Qed.



(** C6: neither conversion changes its input. [paramToDict] takes the
    container by value; whether it returns or raises, the native heap is as
    before and so is every Python object that existed: the one change is the
    new dictionary. [dictToParam], whether it returns or raises, leaves every
    Python object as it was, the mapping it reads among them. *)
Theorem inputs_not_mutated `{Platform} σ :
  (∀ p : Param,
     match paramToDict p σ with
     | Returns _ σ' | Raises _ σ' =>
         natives σ' = natives σ ∧ ∃ d, pyobjs σ' = pyobjs σ ++ [d]
     | Undefined _ => False
     end) ∧
  (∀ dd,
     match dictToParam dd σ with
     | Returns _ σ' | Raises _ σ' => pyobjs σ' = pyobjs σ
     | Undefined _ => True
     end).
Proof.
  split.
  - intros p. destruct (paramToDict_outcome p σ) as (d & [-> | ->]); cbn; eauto.
  - intros dd. destruct (pyobjs σ !! dd) as [m|] eqn:Hdd.
    + destruct (dictToParam_outcome _ _ _ Hdd) as [(p & ns & ->)| ->]; done.
    + unfold dictToParam, unraisable, dict_items, mbind, M_bind. by rewrite Hdd.
Qed.

(** C7 (the code does not do this): evaluated on the mapping {"a": 1},
    [dictToParam] returns with the [DataValue] it allocated still live on
    the native heap, next to the deleted key string; the same holds on the
    error path, when the integer of a later entry does not fit a C long and
    the call ends with the empty container. *)
Theorem DataValue_not_released :
  @dictToParam LP64 0 (one_item "a" (PyInt 1)) =
    Returns {["a" := DVInt 1]}
            (mkState [[("a", PyInt 1)]] [Some (CDataValue (DVInt 1)); None]) ∧
  @dictToParam ILP32 0 (one_item "a" (PyInt 1)) =
    Returns {["a" := DVInt 1]}
            (mkState [[("a", PyInt 1)]] [Some (CDataValue (DVInt 1)); None]) ∧
  @dictToParam LP64 0 (mkState [[("a", PyInt 1); ("n", PyInt (2 ^ 63))]] []) =
    Returns ∅
           (mkState [[("a", PyInt 1); ("n", PyInt (2 ^ 63))]]
                    [Some (CDataValue (DVInt 1)); None]).
Proof. split_and!; vm_compute; reflexivity. Qed.

(** C8 (amended): [paramToDict] is a function of the container: in any two
    states it ends the same way, returning a reference to a new dictionary
    with the same items or raising the same [TypeError], and changes nothing
    else. [dictToParam] is a function of the mapping when every value passes
    one of its type tests and the keys stay distinct as C strings: on two
    dictionaries that are equal as mappings, in any two states and whatever
    the orders of enumeration, both runs return the same container (the
    empty one when some integer does not fit a C long), and no Python
    object is changed. *)
Theorem conversions_deterministic `{Platform} :
  (∀ (p : Param) σ1 σ2,
     ∃ d,
       (paramToDict p σ1 =
          Returns (length (pyobjs σ1)) (mkState (pyobjs σ1 ++ [d]) (natives σ1)) ∧
        paramToDict p σ2 =
          Returns (length (pyobjs σ2)) (mkState (pyobjs σ2 ++ [d]) (natives σ2))) ∨
       (paramToDict p σ1 =
          Raises TypeError (mkState (pyobjs σ1 ++ [d]) (natives σ1)) ∧
        paramToDict p σ2 =
          Raises TypeError (mkState (pyobjs σ2 ++ [d]) (natives σ2)))) ∧
  (∀ σ1 σ2 dd1 dd2 (m1 m2 : pydict),
     pyobjs σ1 !! dd1 = Some m1 → pyobjs σ2 !! dd2 = Some m2 →
     dict_wf m1 → dict_wf m2 → dict_map m1 = dict_map m2 →
     Forall (λ kv, supported kv.2 = true) m1 →
     NoDup (converted m1).*1 →
     ∃ p ns1 ns2,
       dictToParam dd1 σ1 = Returns p (mkState (pyobjs σ1) ns1) ∧
       dictToParam dd2 σ2 = Returns p (mkState (pyobjs σ2) ns2) ∧
       (Forall (λ kv, in_range kv.2) m1 → p = list_to_map (converted m1)) ∧
       (¬ Forall (λ kv, in_range kv.2) m1 → p = ∅)).
Proof.
  split.
  - intros p σ1 σ2. exists (collect p (getKeys p) []).2.
    rewrite !paramToDict_collect.
    destruct (collect p (getKeys p) []).1; [by left|by right].
  - intros σ1 σ2 dd1 dd2 m1 m2 Hdd1 Hdd2 Hwf1 Hwf2 Hmap Hs1 Hnd1.
    assert (m1 ≡ₚ m2) as Hperm by (by apply list_to_map_inj).
    assert (Forall (λ kv, supported kv.2 = true) m2) as Hs2
      by (by rewrite <- Hperm).
    destruct (converted_order _ _ Hwf1 Hwf2 Hmap Hnd1) as [Hnd2 Hp].
    destruct (decide (Forall (λ kv, in_range kv.2) m1)) as [Hr1|Hr1].
    + assert (Forall (λ kv, in_range kv.2) m2) as Hr2 by (by rewrite <- Hperm).
      assert (convertible m1) as Hc1 by (by apply Forall_and).
      assert (convertible m2) as Hc2 by (by apply Forall_and).
      exists (list_to_map (converted m1)). eexists _, _.
      rewrite (dictToParam_converted _ _ _ Hdd1) by done.
      rewrite (dictToParam_converted _ _ _ Hdd2) by done.
      rewrite <- Hp. by split_and!.
    + pose proof Hr1 as Hex. apply not_Forall_Exists in Hex; [|apply _].
      assert (Exists (λ kv, ¬ in_range kv.2) m2) as Hr2 by (by rewrite <- Hperm).
      eexists _, _, _.
      rewrite (dictToParam_overflow _ _ _ Hdd1), (dictToParam_overflow _ _ _ Hdd2)
        by done.
      by split_and!.
Qed.

Lemma conversions_deterministic_witness :
  (∃ d,
     (@paramToDict LP64 {["n" := DVInt 10]} (mkState [] []) =
        Returns 0 (mkState ([] ++ [d]) []) ∧
      @paramToDict LP64 {["n" := DVInt 10]} (mkState [[]] [None]) =
        Returns 1 (mkState ([[]] ++ [d]) [None])) ∨
     (@paramToDict LP64 {["n" := DVInt 10]} (mkState [] []) =
        Raises TypeError (mkState ([] ++ [d]) []) ∧
      @paramToDict LP64 {["n" := DVInt 10]} (mkState [[]] [None]) =
        Raises TypeError (mkState ([[]] ++ [d]) [None]))) ∧
  (∃ p ns1 ns2,
     @dictToParam LP64 0 (mkState [example_settings] []) =
       Returns p (mkState [example_settings] ns1) ∧
     @dictToParam LP64 1 (mkState [[]; settings_reordered] [None]) =
       Returns p (mkState [[]; settings_reordered] ns2) ∧
     (Forall (λ kv, @in_range LP64 kv.2) example_settings →
      p = list_to_map (converted example_settings)) ∧
     (¬ Forall (λ kv, @in_range LP64 kv.2) example_settings → p = ∅)).
Proof.
  assert (dict_wf example_settings) as Hwf1 by decide_by_eval.
  assert (dict_wf settings_reordered) as Hwf2 by decide_by_eval.
  assert (dict_map example_settings = dict_map settings_reordered) as Hmap
    by (vm_compute; reflexivity).
  assert (Forall (λ kv, supported kv.2 = true) example_settings) as Hs
    by decide_by_eval.
  assert (NoDup (converted example_settings).*1) as Hnd by decide_by_eval.
  split.
  - exact (proj1 (@conversions_deterministic LP64) {["n" := DVInt 10]}
             (mkState [] []) (mkState [[]] [None])).
  - exact (proj2 (@conversions_deterministic LP64)
             (mkState [example_settings] []) (mkState [[]; settings_reordered] [None])
             0 1 example_settings settings_reordered
             eq_refl eq_refl Hwf1 Hwf2 Hmap Hs Hnd).
Defined.

(** C8, as stated, fails for [dictToParam]: two dictionaries that are equal
    as mappings and enumerate in different orders give different outcomes
    when a value passes none of the type tests (one run reuses the value of
    the entry before, the other reads [dv] unassigned), and different
    containers when two keys differ only after a zero byte. *)
Lemma determinism_counterexample :
  dict_map [("a", PyInt 1); ("b", PyNone)] = dict_map [("b", PyNone); ("a", PyInt 1)] ∧
  @dictToParam LP64 0 (mkState [[("a", PyInt 1); ("b", PyNone)]] []) =
    Returns {["a" := DVInt 1; "b" := DVInt 1]}
            (mkState [[("a", PyInt 1); ("b", PyNone)]]
                     [Some (CDataValue (DVInt 1)); None; None]) ∧
  @dictToParam LP64 0 (mkState [[("b", PyNone); ("a", PyInt 1)]] []) =
    Undefined UnassignedPointer ∧
  dict_map [(a_NUL_x, PyInt 1); (a_NUL_y, PyInt 2)] =
    dict_map [(a_NUL_y, PyInt 2); (a_NUL_x, PyInt 1)] ∧
  @dictToParam LP64 0 (mkState [[(a_NUL_x, PyInt 1); (a_NUL_y, PyInt 2)]] []) =
    Returns {["a" := DVInt 2]}
            (mkState [[(a_NUL_x, PyInt 1); (a_NUL_y, PyInt 2)]]
                     [Some (CDataValue (DVInt 1)); None;
                      Some (CDataValue (DVInt 2)); None]) ∧
  @dictToParam LP64 0 (mkState [[(a_NUL_y, PyInt 2); (a_NUL_x, PyInt 1)]] []) =
    Returns {["a" := DVInt 1]}
            (mkState [[(a_NUL_y, PyInt 2); (a_NUL_x, PyInt 1)]]
                     [Some (CDataValue (DVInt 2)); None;
                      Some (CDataValue (DVInt 1)); None]).
Proof. split_and!; vm_compute; reflexivity. Qed.

(** C9: [dictToParam] takes a boolean for an integer. On every mapping
    whose values are all converted and whose keys stay distinct as C
    strings, it raises no error and the container holds, under the key of
    each boolean, an INT_VALUE: 1 for true, 0 for false. *)
Theorem boolean_stored_as_integer `{Platform} σ dd (m : pydict) k (b : bool) :
  pyobjs σ !! dd = Some m →
  convertible m →
  NoDup (converted m).*1 →
  (k, PyBool b) ∈ m →
  ∃ p σ', dictToParam dd σ = Returns p σ' ∧
          p !! c_str k = Some (DVInt (if b then 1 else 0)).
Proof.
  intros Hdd Hm Hnd Hin. rewrite (dictToParam_converted _ _ _ Hdd) by done.
  eexists _, _. split; [done|].
  apply elem_of_list_to_map_1; [done|].
  apply list_elem_of_fmap. exists (k, PyBool b). split; [|done].
  by destruct b.
Qed.

Lemma boolean_stored_as_integer_witness :
  pyobjs (one_item "flag" (PyBool true)) !! 0 = Some [("flag", PyBool true)] ∧
  @convertible ILP32 [("flag", PyBool true)] ∧
  NoDup (converted [("flag", PyBool true)]).*1 ∧
  ("flag", PyBool true) ∈ [("flag", PyBool true)] ∧
  ∃ p σ', @dictToParam ILP32 0 (one_item "flag" (PyBool true)) = Returns p σ' ∧
          p !! c_str "flag" = Some (DVInt 1).
Proof.
  assert (@convertible ILP32 [("flag", PyBool true)]) as Hm by decide_by_eval.
  assert (NoDup (converted [("flag", PyBool true)]).*1) as Hnd by decide_by_eval.
  assert (("flag", PyBool true) ∈ [("flag", PyBool true)]) as Hin
    by apply list_elem_of_here.
  split_and!; [reflexivity|exact Hm|exact Hnd|exact Hin|].
  exact (@boolean_stored_as_integer ILP32 (one_item "flag" (PyBool true)) 0
           [("flag", PyBool true)] "flag" true eq_refl Hm Hnd Hin).
Defined.

(** C10: the three type tests of [dictToParam] have no fallback. When the
    first item enumerated has a value that is no int, long, float or str,
    [dv] is read without having been assigned: the behaviour is undefined,
    and no error is raised. When such a value comes later, the tagged value
    built for the last item before it whose value was converted is stored
    again under the new key, and no error is raised either. *)
Theorem unsupported_value_no_error `{Platform} :
  (∀ σ dd k v (rest : pydict),
     pyobjs σ !! dd = Some ((k, v) :: rest) → supported v = false →
     dictToParam dd σ = Undefined UnassignedPointer) ∧
  (∀ σ dd (pre mid post : pydict) k0 v0 k v,
     pyobjs σ !! dd = Some (pre ++ (k0, v0) :: mid ++ (k, v) :: post) →
     convertible (pre ++ [(k0, v0)]) →
     Forall (λ kv, supported kv.2 = false) mid → supported v = false →
     Forall (λ kv, in_range kv.2) post →
     c_str k ∉ (converted post).*1 →
     ∃ p σ', dictToParam dd σ = Returns p σ' ∧
             p !! c_str k = Some (DataValue_of v0)).
Proof.
  split.
  - intros σ dd k v rest Hdd Hs. rewrite (dictToParam_fill _ _ _ Hdd).
    cbn [fill]. by rewrite Hs.
  - intros σ dd pre mid post k0 v0 k v Hdd Hpre Hmid Hs Hpost Hk.
    rewrite (dictToParam_fill _ _ _ Hdd), fill_snoc_convertible by done.
    edestruct (fill_unsupported mid) as (p1 & ->); [done|].
    cbn [fill]. rewrite Hs.
    edestruct (fill_assigned post) as (p' & -> & Hp'); [done|].
    eexists _, _. split; [done|]. rewrite Hp' by done.
    by rewrite lookup_insert_eq.
Qed.

Lemma unsupported_value_no_error_witness :
  @dictToParam LP64 0 (one_item "x" PyNone) = Undefined UnassignedPointer ∧
  ∃ p σ', @dictToParam LP64 0
            (mkState [[("a", PyInt 1); ("u", PyNone); ("x", PyList [])]] []) =
            Returns p σ' ∧
          p !! c_str "x" = Some (DataValue_of (PyInt 1)).
Proof.
  assert (@convertible LP64 ([] ++ [("a", PyInt 1)])) as Hpre by decide_by_eval.
  assert (Forall (λ kv : string * pyobj, supported kv.2 = false) [("u", PyNone)])
    as Hmid by (by constructor).
  split.
  - exact (proj1 (@unsupported_value_no_error LP64) (one_item "x" PyNone) 0
             "x" PyNone [] eq_refl eq_refl).
  - exact (proj2 (@unsupported_value_no_error LP64)
             (mkState [[("a", PyInt 1); ("u", PyNone); ("x", PyList [])]] []) 0
             [] [("u", PyNone)] [] "a" (PyInt 1) "x" (PyList [])
             eq_refl Hpre Hmid eq_refl (Forall_nil_2 _) (not_elem_of_nil _)).
Defined.

(** * Further properties of the two conversions *)

(** ** How [dictToParam] ends, and what it leaves on the native heap *)

Section EndFacts.
Context `{Platform}.

Lemma unsupported_in_range v : supported v = false → in_range v.
Proof. by destruct v. Qed.

Lemma fill_assigned_overflow m : ∀ p d,
  Exists (λ kv, ¬ in_range kv.2) m → fill m p (Some d) = Overflow.
Proof.
  induction m as [|[k v] m IH]; intros p d Hm; [by apply Exists_nil in Hm|].
  cbn [fill]. apply Exists_cons in Hm as [Hm|Hm]; cbn in Hm.
  - destruct (supported v) eqn:Hs; [by rewrite decide_False|].
    destruct Hm. by apply unsupported_in_range.
  - destruct (supported v); [|by apply IH].
    destruct (decide (in_range v)); [by apply IH|done].
Qed.

Lemma fill_returns m :
  starts_assigned m → Forall (λ kv, in_range kv.2) m →
  ∃ p, fill m ∅ None = Filled p.
Proof.
  destruct m as [|[k v] m]; [by exists ∅|]. cbn. intros Hs [Hr Hm]%Forall_cons.
  cbn in Hr. rewrite Hs, decide_True by done.
  edestruct (fill_assigned m) as (p & -> & _); [done|]. by exists p.
Qed.

Lemma fill_raises m :
  starts_assigned m → Exists (λ kv, ¬ in_range kv.2) m →
  fill m ∅ None = Overflow.
Proof.
  destruct m as [|[k v] m]; [by intros _ ?%Exists_nil|]. cbn. intros Hs Hm.
  rewrite Hs. destruct (decide (in_range v)) as [Hr|Hr]; [|done].
  apply Exists_cons in Hm as [Hm|Hm]; [done|]. by apply fill_assigned_overflow.
Qed.

Lemma fill_undefined m : ¬ starts_assigned m → fill m ∅ None = Unassigned.
Proof.
  destruct m as [|[k v] m]; cbn; [by intros []|].
  by destruct (supported v).
Qed.

Lemma scratch_no_live_string m : ∀ cur, no_live_string (scratch m cur).
Proof.
  unfold no_live_string.
  induction m as [|[k v] m IH]; intros cur; cbn [scratch]; [constructor|].
  destruct (supported v).
  - destruct (decide (in_range v)); [|constructor].
    by repeat constructor.
  - destruct cur; [|constructor]. by constructor.
Qed.

Lemma scratch_live m : ∀ p cur p',
  fill m p cur = Filled p' →
  live (scratch m cur) =
    (λ kv, CDataValue (DataValue_of kv.2)) <$> filter (λ kv, supported kv.2 = true) m.
Proof.
  unfold live.
  induction m as [|[k v] m IH]; intros p cur p' Hfill; [done|].
  cbn [fill scratch] in *. destruct (supported v) eqn:Hs.
  - destruct (decide (in_range v)); [|done].
    rewrite filter_cons_True by done. cbn. f_equal. by eapply IH.
  - destruct cur as [d|]; [|done].
    rewrite filter_cons_False by (cbn; congruence). cbn. by eapply IH.
Qed.

End EndFacts.

(** X1: how [dictToParam] ends is decided by the items alone. It never
    raises: it returns exactly when no value is read through an unassigned
    [dv] (the dictionary is empty or its first value passes a type test),
    and otherwise its behaviour is undefined. When some integer does not fit
    a C long, what it returns is the empty container: the entries built
    before that item are lost with the [OverflowError]. *)
Theorem dictToParam_ends `{Platform} σ dd (m : pydict) :
  pyobjs σ !! dd = Some m →
  (∀ e σ', dictToParam dd σ ≠ Raises e σ') ∧
  ((∃ p σ', dictToParam dd σ = Returns p σ') ↔ starts_assigned m) ∧
  (dictToParam dd σ = Undefined UnassignedPointer ↔ ¬ starts_assigned m) ∧
  (starts_assigned m → Exists (λ kv, ¬ in_range kv.2) m →
   ∃ σ', dictToParam dd σ = Returns ∅ σ').
Proof.
  intros Hdd. rewrite (dictToParam_fill _ _ _ Hdd).
  destruct (decide (starts_assigned m)) as [Hs|Hs].
  - destruct (decide (Forall (λ kv, in_range kv.2) m)) as [Hr|Hr].
    + destruct (fill_returns m Hs Hr) as [p ->]. cbn. split_and!.
      * done.
      * split; [done|]. intros _. by eexists _, _.
      * split; [done|]. intros Hn. by destruct Hn.
      * intros _ Hex. by apply Exists_not_Forall in Hex.
    + pose proof Hr as Hex. apply not_Forall_Exists in Hex; [|apply _].
      rewrite (fill_raises m Hs Hex). cbn. split_and!.
      * done.
      * split; [done|]. intros _. by eexists _, _.
      * split; [done|]. intros Hn. by destruct Hn.
      * intros _ _. by eexists.
  - rewrite (fill_undefined m Hs). cbn. split_and!.
    + done.
    + split; [by intros (p & σ' & [=])|done].
    + done.
    + done.
Qed.

Lemma dictToParam_ends_witness :
  (∀ e σ', @dictToParam LP64 0 (one_item "n" (PyInt (2 ^ 63))) ≠ Raises e σ') ∧
  ((∃ p σ', @dictToParam LP64 0 (one_item "n" (PyInt (2 ^ 63))) = Returns p σ') ↔
     starts_assigned [("n", PyInt (2 ^ 63))]) ∧
  (@dictToParam LP64 0 (one_item "n" (PyInt (2 ^ 63))) = Undefined UnassignedPointer ↔
     ¬ starts_assigned [("n", PyInt (2 ^ 63))]) ∧
  (starts_assigned [("n", PyInt (2 ^ 63))] →
   Exists (λ kv, ¬ @in_range LP64 kv.2) [("n", PyInt (2 ^ 63))] →
   ∃ σ', @dictToParam LP64 0 (one_item "n" (PyInt (2 ^ 63))) = Returns ∅ σ').
Proof.
  exact (@dictToParam_ends LP64 (one_item "n" (PyInt (2 ^ 63))) 0
           [("n", PyInt (2 ^ 63))] eq_refl).
Defined.

(** X2: whatever the dictionary, when [dictToParam] returns or raises it has
    changed no cell that was on the native heap before, and every key string
    it allocated with [new string(key)] has been deleted: what it added to
    the heap holds no live string. *)
Theorem key_strings_released `{Platform} σ dd :
  match dictToParam dd σ with
  | Returns _ σ' | Raises _ σ' =>
      ∃ added, natives σ' = natives σ ++ added ∧ no_live_string added
  | Undefined _ => True
  end.
Proof.
  destruct (pyobjs σ !! dd) as [m|] eqn:Hdd.
  - rewrite (dictToParam_fill _ _ _ Hdd).
    destruct (fill m ∅ None); cbn; [| |done].
    all: exists (scratch m None); split; [done|apply scratch_no_live_string].
  - unfold dictToParam, unraisable, dict_items, mbind, M_bind. by rewrite Hdd.
Qed.

(** X3: when every integer of the dictionary fits a C long and
    [dictToParam] returns, the cells it leaves allocated on the native heap
    are, in the order of enumeration, one [DataValue] for each item whose
    value passed a type test, holding the value built for that item; an
    item whose value passed no test allocated none. *)
Theorem one_DataValue_per_converted_item `{Platform} σ dd (m : pydict) p σ' :
  pyobjs σ !! dd = Some m →
  Forall (λ kv, in_range kv.2) m →
  dictToParam dd σ = Returns p σ' →
  ∃ added, natives σ' = natives σ ++ added ∧
           live added =
             (λ kv, CDataValue (DataValue_of kv.2)) <$>
               filter (λ kv, supported kv.2 = true) m.
Proof.
  intros Hdd Hr. rewrite (dictToParam_fill _ _ _ Hdd).
  destruct (fill m ∅ None) as [p'| |] eqn:Hfill; [| |done].
  - intros [= <- <-]. exists (scratch m None). split; [done|].
    by eapply scratch_live.
  - by apply fill_in_range in Hfill.
Qed.

Lemma one_DataValue_per_converted_item_witness :
  ∃ added,
    [Some (CDataValue (DVInt 1)); None; None; Some (CDataValue (DVDouble 0.5)); None] =
      [] ++ added ∧
    live added =
      (λ kv, CDataValue (DataValue_of kv.2)) <$>
        filter (λ kv : string * pyobj, supported kv.2 = true)
          [("a", PyInt 1); ("u", PyNone); ("x", PyFloat 0.5)].
Proof.
  assert (@dictToParam LP64 0
            (mkState [[("a", PyInt 1); ("u", PyNone); ("x", PyFloat 0.5)]] []) =
          Returns {["a" := DVInt 1; "u" := DVInt 1; "x" := DVDouble 0.5]}
            (mkState [[("a", PyInt 1); ("u", PyNone); ("x", PyFloat 0.5)]]
               [Some (CDataValue (DVInt 1)); None; None;
                Some (CDataValue (DVDouble 0.5)); None])) as Hrun
    by (vm_compute; reflexivity).
  assert (Forall (λ kv, @in_range LP64 kv.2)
            [("a", PyInt 1); ("u", PyNone); ("x", PyFloat 0.5)]) as Hr
    by decide_by_eval.
  exact (@one_DataValue_per_converted_item LP64
           (mkState [[("a", PyInt 1); ("u", PyNone); ("x", PyFloat 0.5)]] []) 0
           [("a", PyInt 1); ("u", PyNone); ("x", PyFloat 0.5)] _ _ eq_refl Hr Hrun).
Defined.

(** X4: [paramToDict] returns a dictionary exactly when every value of the
    container carries one of the tags STRING_VALUE, INT_VALUE and
    DOUBLE_VALUE, whatever the keys are. Otherwise it raises, and the only
    error it ever raises is the [TypeError] of the runtime for
    [raise "not implemented !"]: the lookup of a key it enumerated never
    fails. *)
Theorem paramToDict_ends `{Platform} (p : Param) σ :
  ((∃ rv σ', paramToDict p σ = Returns rv σ') ↔
     map_Forall (λ _ val, is_Some (tagkind (valueType val))) p) ∧
  ((∃ σ', paramToDict p σ = Raises TypeError σ') ↔
     ¬ map_Forall (λ _ val, is_Some (tagkind (valueType val))) p) ∧
  (∀ e σ', paramToDict p σ = Raises e σ' → e = TypeError).
Proof.
  rewrite paramToDict_collect.
  destruct (decide (map_Forall (λ _ val, is_Some (tagkind (valueType val))) p))
    as [Hp|Hp].
  - rewrite collect_complete.
    + split_and!.
      * split; [done|]. intros _. by eexists _, _.
      * split; [by intros (σ' & [=])|done].
      * by intros e σ' [=].
    + apply Forall_forall. intros k [val Hk]%getKeys_elem. rewrite Hk. cbn.
      destruct (pyobj_of val) eqn:Ho; [done|].
      apply pyobj_of_None in Ho. specialize (Hp _ _ Hk). cbn in Hp.
      rewrite Ho in Hp. by destruct Hp.
  - pose proof Hp as Hex. apply map_not_Forall in Hex as (k & val & Hk & Htag);
      [|apply _].
    rewrite collect_incomplete.
    + split_and!.
      * split; [by intros (rv & σ' & [=])|done].
      * split; [done|]. intros _. by eexists.
      * by intros e σ' [= <- _].
    + apply Exists_exists. exists k. split; [by apply getKeys_elem|].
      rewrite Hk. cbn. apply pyobj_of_None. by apply eq_None_not_Some.
Qed.

(** X5: on a container whose keys have no zero byte and whose values all
    carry one of the three tags, the dictionary [paramToDict] returns maps
    exactly the keys of the container: a STRING_VALUE to its text cut at the
    first zero byte, an INT_VALUE to the integer wrapped to a C int, a
    DOUBLE_VALUE to the same double. *)
Theorem paramToDict_values `{Platform} (p : Param) σ :
  map_Forall (λ k val, NUL_free k ∧ is_Some (tagkind (valueType val))) p →
  ∃ d, paramToDict p σ =
         Returns (length (pyobjs σ)) (mkState (pyobjs σ ++ [d]) (natives σ)) ∧
       ∀ k, dict_map d !! k =
              match p !! k with
              | Some (DVString s) => Some (PyStr (c_str s))
              | Some (DVInt n) => Some (PyInt (wrap INT_BITS n))
              | Some (DVDouble x) => Some (PyFloat x)
              | _ => None
              end.
Proof.
  intros Hp. destruct (paramToDict_valid p σ Hp) as (d & Hrun & _ & Hmap).
  exists d. split; [done|]. intros k. rewrite Hmap, lookup_omap.
  by destruct (p !! k) as [[]|].
Qed.

Lemma paramToDict_values_witness :
  ∃ d, @paramToDict LP64 {["big" := DVInt (2 ^ 31 + 5)]} (mkState [] []) =
         Returns 0 (mkState ([] ++ [d]) []) ∧
       ∀ k, dict_map d !! k =
              match ({["big" := DVInt (2 ^ 31 + 5)]} : Param) !! k with
              | Some (DVString s) => Some (PyStr (c_str s))
              | Some (DVInt n) => Some (PyInt (wrap (@INT_BITS LP64) n))
              | Some (DVDouble x) => Some (PyFloat x)
              | _ => None
              end.
Proof.
  assert (map_Forall (λ k val, NUL_free k ∧ is_Some (tagkind (valueType val)))
            ({["big" := DVInt (2 ^ 31 + 5)]} : Param)) as Hp.
  { apply map_Forall_singleton. split; [reflexivity|by eexists]. }
  exact (@paramToDict_values LP64 _ (mkState [] []) Hp).
Defined.

(** X6: when every integer of the dictionary fits a C long and
    [dictToParam] returns, the keys of the container are the keys of the
    dictionary read as C strings (cut at the first zero byte), no more and
    no fewer, also when a value passed no type test or two keys became
    one. *)
Theorem dictToParam_keys `{Platform} σ dd (m : pydict) (p : Param) σ' :
  pyobjs σ !! dd = Some m →
  Forall (λ kv, in_range kv.2) m →
  dictToParam dd σ = Returns p σ' →
  dom p = list_to_set (c_str <$> m.*1).
Proof.
  intros Hdd Hr. rewrite (dictToParam_fill _ _ _ Hdd).
  destruct (fill m ∅ None) as [p'| |] eqn:Hfill; [| |done].
  - intros [= <- _]. rewrite (fill_dom _ _ _ _ Hfill), dom_empty_L.
    by rewrite (right_id_L ∅ (∪)).
  - by apply fill_in_range in Hfill.
Qed.

Lemma dictToParam_keys_witness :
  dom ({["a" := DVInt 2]} : Param) =
    list_to_set (c_str <$> [(a_NUL_x, PyInt 1); (a_NUL_y, PyInt 2)].*1).
Proof.
  assert (@dictToParam LP64 0 (mkState [[(a_NUL_x, PyInt 1); (a_NUL_y, PyInt 2)]] []) =
          Returns {["a" := DVInt 2]}
                  (mkState [[(a_NUL_x, PyInt 1); (a_NUL_y, PyInt 2)]]
                     [Some (CDataValue (DVInt 1)); None;
                      Some (CDataValue (DVInt 2)); None])) as Hrun
    by (vm_compute; reflexivity).
  assert (Forall (λ kv, @in_range LP64 kv.2)
            [(a_NUL_x, PyInt 1); (a_NUL_y, PyInt 2)]) as Hr by decide_by_eval.
  exact (@dictToParam_keys LP64
           (mkState [[(a_NUL_x, PyInt 1); (a_NUL_y, PyInt 2)]] []) 0
           [(a_NUL_x, PyInt 1); (a_NUL_y, PyInt 2)] _ _ eq_refl Hr Hrun).
Defined.

(** X7: [dictToParam] overwrites. When every integer of the dictionary fits
    a C long and [dictToParam] returns, the entry under a key is the value
    built for the last item enumerated whose key reads, as a C string, as
    that key, provided the value of that item passed a type test: an int or
    long as INT_VALUE, a float as DOUBLE_VALUE, a str as STRING_VALUE cut at
    its first zero byte. *)
Theorem last_item_wins `{Platform} σ dd (pre post : pydict) k v (p : Param) σ' :
  pyobjs σ !! dd = Some (pre ++ (k, v) :: post) →
  Forall (λ kv, in_range kv.2) (pre ++ (k, v) :: post) →
  dictToParam dd σ = Returns p σ' →
  supported v = true →
  c_str k ∉ c_str <$> post.*1 →
  p !! c_str k = Some (DataValue_of v).
Proof.
  intros Hdd Hr. rewrite (dictToParam_fill _ _ _ Hdd).
  destruct (fill _ ∅ None) as [p'| |] eqn:Hfill; [| |done].
  - intros [= <- _] Hs Hk. by eapply fill_last_item.
  - by apply fill_in_range in Hfill.
Qed.

Lemma last_item_wins_witness :
  ({["a" := DVDouble 0.5]} : Param) !! c_str a_NUL_y =
    Some (DataValue_of (PyFloat 0.5)).
Proof.
  assert (@dictToParam LP64 0
            (mkState [[(a_NUL_x, PyInt 1); (a_NUL_y, PyFloat 0.5)]] []) =
          Returns {["a" := DVDouble 0.5]}
                  (mkState [[(a_NUL_x, PyInt 1); (a_NUL_y, PyFloat 0.5)]]
                     [Some (CDataValue (DVInt 1)); None;
                      Some (CDataValue (DVDouble 0.5)); None])) as Hrun
    by (vm_compute; reflexivity).
  assert (Forall (λ kv, @in_range LP64 kv.2)
            ([(a_NUL_x, PyInt 1)] ++ (a_NUL_y, PyFloat 0.5) :: [])) as Hr
    by decide_by_eval.
  exact (@last_item_wins LP64
           (mkState [[(a_NUL_x, PyInt 1); (a_NUL_y, PyFloat 0.5)]] []) 0
           [(a_NUL_x, PyInt 1)] [] a_NUL_y (PyFloat 0.5) _ _
           eq_refl Hr Hrun eq_refl (not_elem_of_nil _)).
Defined.

(** ** Round trips from the container, and repeated *)

Section RoundTripFacts.
Context `{Platform}.

Lemma wrap_range w n : (0 < w)%Z → fits w (wrap w n).
Proof.
  intros Hw. unfold fits, wrap.
  assert (2 ^ w = 2 * 2 ^ (w - 1))%Z as Hpow.
  { rewrite <- Z.pow_succ_r by lia. f_equal. lia. }
  assert (0 < 2 ^ w)%Z by (apply Z.pow_pos_nonneg; lia).
  pose proof (Z.mod_pos_bound (n + 2 ^ (w - 1)) (2 ^ w)). lia.
Qed.

Lemma converted_fst m : (converted m).*1 = c_str <$> m.*1.
Proof.
  unfold converted. rewrite <- !list_fmap_compose.
  apply list_fmap_ext. by intros ? [??] _.
Qed.

Lemma pyobj_of_native_faithful val :
  native_faithful val →
  ∃ o, pyobj_of val = Some o ∧ DataValue_of o = val ∧ faithful o.
Proof.
  destruct val; try done; cbn; intros Hv; eexists; (split; [reflexivity|]); cbn.
  - split; [|apply c_str_NUL_free].
    unfold DataValue_chars. by rewrite c_str_idemp, Hv.
  - rewrite wrap_fits by auto using INT_BITS_pos. by split.
  - by split.
Qed.

Lemma pyobj_of_supported v :
  supported v = true → pyobj_of (DataValue_of v) = Some (normal v).
Proof. destruct v; try done; intros _; unfold pyobj_of; cbn; by rewrite ?c_str_idemp. Qed.

Lemma normal_faithful v : supported v = true → faithful (normal v).
Proof.
  destruct v; try done; intros _; cbn;
    auto using wrap_range, INT_BITS_pos, c_str_NUL_free.
Qed.

Lemma omap_list_to_map {A B} (f : A → option B) (g : A → B) (l : list (string * A)) :
  Forall (λ kx, f kx.2 = Some (g kx.2)) l →
  omap f (list_to_map l : gmap string A) = list_to_map (prod_map id g <$> l).
Proof.
  induction 1 as [|[k x] l Hx _ IH]; [apply omap_empty|].
  rewrite fmap_cons, !list_to_map_cons. cbn in *.
  by rewrite (omap_insert_Some _ _ _ _ _ Hx), IH.
Qed.

(** The items of a dictionary are what it maps its keys to. *)
Lemma dict_items_Forall (P : string → pyobj → Prop) d :
  dict_wf d → map_Forall P (dict_map d) → Forall (λ kv, P kv.1 kv.2) d.
Proof.
  intros Hwf HP. apply Forall_forall. intros [k o] Hin. cbn.
  apply HP. by apply elem_of_list_to_map_1.
Qed.

(** The round trip on a dictionary whose values are all converted and whose
    keys stay distinct as C strings. *)
Lemma roundtrip_converted σ dd m :
  pyobjs σ !! dd = Some m → convertible m → NoDup (converted m).*1 →
  ∃ d, roundtrip dd σ =
         Returns (length (pyobjs σ))
                 (mkState (pyobjs σ ++ [d]) (natives σ ++ scratch m None)) ∧
       dict_wf d ∧
       dict_map d = omap pyobj_of (list_to_map (converted m)).
Proof.
  intros Hdd Hm Hnd. unfold roundtrip.
  erewrite bind_Returns by (by apply dictToParam_converted).
  edestruct (paramToDict_valid (list_to_map (converted m))) as (d & -> & Hwf & Hmap).
  { intros k val Hk%elem_of_list_to_map_2.
    apply list_elem_of_fmap in Hk as [[k0 v0] [[= -> ->] Hin]].
    unfold convertible in Hm. rewrite Forall_forall in Hm.
    destruct (Hm _ Hin) as [Hs _]. cbn in *.
    split; [apply c_str_NUL_free|]. rewrite DataValue_of_kind by done.
    by destruct v0. }
  by exists d.
Qed.

End RoundTripFacts.

(** X8: the round trip from the container. For every container whose keys
    and texts have no zero byte and whose integers fit a C int, with values
    tagged STRING_VALUE, INT_VALUE or DOUBLE_VALUE, converting it with
    [paramToDict] and the new dictionary back with [dictToParam] returns a
    container equal to it. *)
Theorem container_roundtrip `{Platform} (p : Param) σ :
  map_Forall (λ k val, NUL_free k ∧ native_faithful val) p →
  ∃ σ', back_and_forth p σ = Returns p σ'.
Proof.
  intros Hp.
  edestruct (paramToDict_valid p σ) as (d & Hrun & Hwf & Hmap).
  { intros k val Hk. destruct (Hp _ _ Hk) as [? Hv]. split; [done|].
    by destruct val. }
  assert (Forall (λ kv, NUL_free kv.1 ∧ faithful kv.2) d) as Hd.
  { apply (dict_items_Forall (λ k o, NUL_free k ∧ faithful o)); [done|].
    intros k o. rewrite Hmap, lookup_omap_Some. intros (val & Ho & Hk).
    destruct (Hp _ _ Hk) as [? Hv]. split; [done|].
    destruct (pyobj_of_native_faithful _ Hv) as (o' & Ho' & _ & ?). congruence. }
  assert (Forall (λ kv, NUL_free kv.1) d) as Hkeys.
  { eapply Forall_impl; [exact Hd|]. by intros ? [??]. }
  assert (convertible d) as Hconv.
  { eapply Forall_impl; [exact Hd|]. intros ? [??]. by apply faithful_convertible. }
  unfold back_and_forth. erewrite bind_Returns by exact Hrun.
  rewrite (dictToParam_converted _ _ d);
    [|by apply lookup_snoc|done|by rewrite converted_keys].
  eexists. f_equal.
  rewrite converted_NUL_free, list_to_map_fmap by done. fold (dict_map d).
  rewrite Hmap. apply map_eq. intros k. rewrite lookup_fmap, lookup_omap.
  destruct (p !! k) as [val|] eqn:Hk; [|done]. cbn.
  destruct (Hp _ _ Hk) as [_ Hv].
  destruct (pyobj_of_native_faithful _ Hv) as (o & Ho & Hval & _).
  rewrite Ho. cbn. by rewrite Hval.
Qed.

Lemma container_roundtrip_witness :
  ∃ σ', @back_and_forth LP64
          {["mode" := DVString "fast"; "iterations" := DVInt 10;
            "tolerance" := DVDouble 0.05]} (mkState [] []) =
        Returns {["mode" := DVString "fast"; "iterations" := DVInt 10;
                  "tolerance" := DVDouble 0.05]} σ'.
Proof.
  assert (map_Forall (λ k val, NUL_free k ∧ @native_faithful LP64 val)
            ({["mode" := DVString "fast"; "iterations" := DVInt 10;
               "tolerance" := DVDouble 0.05]} : Param)) as Hp
    by decide_by_eval.
  exact (@container_roundtrip LP64 _ (mkState [] []) Hp).
Defined.

(** X9: what the round trip returns for every mapping it accepts. When
    every value passes a type test, every integer fits a C long and the
    keys stay distinct as C strings, [dictToParam] followed by
    [paramToDict] returns a new dictionary that maps each key, cut at its
    first zero byte, to the value of that key with an integer wrapped to a
    C int, a boolean turned into the integer 1 or 0, a text cut at its
    first zero byte and a float unchanged. *)
Theorem roundtrip_normal_form `{Platform} σ dd (m : pydict) :
  pyobjs σ !! dd = Some m →
  convertible m →
  NoDup (c_str <$> m.*1) →
  ∃ rv σ' d, roundtrip dd σ = Returns rv σ' ∧
             pyobjs σ' !! rv = Some d ∧
             dict_map d = list_to_map ((λ kv, (c_str kv.1, normal kv.2)) <$> m).
Proof.
  intros Hdd Hm Hnd.
  destruct (roundtrip_converted σ dd m) as (d & Hrun & Hwf & Hmap);
    [done|done|by rewrite converted_fst|].
  eexists _, _, d. split; [exact Hrun|]. split; [apply lookup_snoc|].
  rewrite Hmap, (omap_list_to_map _ (λ val, default PyNone (pyobj_of val))).
  - unfold dict_map, converted. f_equal. rewrite <- list_fmap_compose.
    apply Forall_fmap_ext_1. eapply Forall_impl; [exact Hm|].
    intros [k v] [Hs _]. cbn in *. by rewrite pyobj_of_supported.
  - unfold converted. apply Forall_fmap. eapply Forall_impl; [exact Hm|].
    intros [k v] [Hs _]. cbn in *. by rewrite pyobj_of_supported.
Qed.

Lemma roundtrip_normal_form_witness :
  ∃ rv σ' d, @roundtrip LP64 0 (mkState [unfaithful_settings] []) = Returns rv σ' ∧
             pyobjs σ' !! rv = Some d ∧
             dict_map d =
               list_to_map ((λ kv, (c_str kv.1, @normal LP64 kv.2)) <$> unfaithful_settings).
Proof.
  assert (@convertible LP64 unfaithful_settings) as Hm by decide_by_eval.
  assert (NoDup (c_str <$> unfaithful_settings.*1)) as Hnd by decide_by_eval.
  exact (@roundtrip_normal_form LP64 (mkState [unfaithful_settings] []) 0
           unfaithful_settings eq_refl Hm Hnd).
Defined.

(** X10: a second round trip changes nothing. For every mapping the round
    trip accepts, the dictionary it returns is accepted again, and its round
    trip returns a dictionary equal to it as a mapping: whatever the casts
    change (wrapped integers, booleans, cut texts and keys), they change the
    first time only. *)
Theorem roundtrip_idempotent `{Platform} σ dd (m : pydict) :
  pyobjs σ !! dd = Some m →
  convertible m →
  NoDup (c_str <$> m.*1) →
  ∃ rv σ1 d, roundtrip dd σ = Returns rv σ1 ∧ pyobjs σ1 !! rv = Some d ∧
    ∃ rv' σ2 d', roundtrip rv σ1 = Returns rv' σ2 ∧ pyobjs σ2 !! rv' = Some d' ∧
                 dict_map d' = dict_map d.
Proof.
  intros Hdd Hm Hnd.
  destruct (roundtrip_converted σ dd m) as (d & Hrun & Hwf & Hmap);
    [done|done|by rewrite converted_fst|].
  assert (Forall (λ kv, NUL_free kv.1 ∧ faithful kv.2) d) as Hd.
  { apply (dict_items_Forall (λ k o, NUL_free k ∧ faithful o)); [done|].
    intros k o. rewrite Hmap, lookup_omap_Some.
    intros (val & Ho & Hk%elem_of_list_to_map_2).
    apply list_elem_of_fmap in Hk as [[k0 v0] [[= -> ->] Hin]].
    unfold convertible in Hm. rewrite Forall_forall in Hm.
    destruct (Hm _ Hin) as [Hs _]. cbn in *.
    rewrite pyobj_of_supported in Ho by done. injection Ho as <-.
    split; [apply c_str_NUL_free|by apply normal_faithful]. }
  assert (Forall (λ kv, NUL_free kv.1) d) as Hkeys.
  { eapply Forall_impl; [exact Hd|]. by intros ? [??]. }
  assert (convertible d) as Hconv.
  { eapply Forall_impl; [exact Hd|]. intros ? [??]. by apply faithful_convertible. }
  eexists _, _, d. split; [exact Hrun|]. split; [apply lookup_snoc|].
  edestruct (roundtrip_converted
               (mkState (pyobjs σ ++ [d]) (natives σ ++ scratch m None))
               (length (pyobjs σ)) d)
    as (d' & Hrun' & _ & Hmap');
    [apply lookup_snoc|done|by rewrite converted_keys|].
  eexists _, _, d'. split; [exact Hrun'|]. split; [apply lookup_snoc|].
  rewrite Hmap', converted_NUL_free, list_to_map_fmap by done. fold (dict_map d).
  apply map_eq. intros k. rewrite lookup_omap, lookup_fmap.
  destruct (dict_map d !! k) as [o|] eqn:Ho; [|done]. cbn.
  apply elem_of_list_to_map_2 in Ho.
  rewrite Forall_forall in Hd. destruct (Hd _ Ho) as [_ Hf].
  by apply pyobj_of_DataValue_of.
Qed.

Lemma roundtrip_idempotent_witness :
  ∃ rv σ1 d, @roundtrip LP64 0 (mkState [unfaithful_settings] []) = Returns rv σ1 ∧
             pyobjs σ1 !! rv = Some d ∧
    ∃ rv' σ2 d', @roundtrip LP64 rv σ1 = Returns rv' σ2 ∧
                 pyobjs σ2 !! rv' = Some d' ∧ dict_map d' = dict_map d.
Proof.
  assert (@convertible LP64 unfaithful_settings) as Hm by decide_by_eval.
  assert (NoDup (c_str <$> unfaithful_settings.*1)) as Hnd by decide_by_eval.
  exact (@roundtrip_idempotent LP64 (mkState [unfaithful_settings] []) 0
           unfaithful_settings eq_refl Hm Hnd).
Defined.

(** ** The error path of [dictToParam] and the keys of [paramToDict] *)

Section MoreFacts.
Context `{Platform}.

Lemma scratch_overflow pre k n post : ∀ p cur,
  Forall (λ kv, in_range kv.2) pre →
  is_Some cur ∨ starts_assigned (pre ++ (k, PyInt n) :: post) →
  ¬ fits LONG_BITS n →
  fill (pre ++ (k, PyInt n) :: post) p cur = Overflow ∧
  live (scratch (pre ++ (k, PyInt n) :: post) cur) =
    (λ kv, CDataValue (DataValue_of kv.2)) <$> filter (λ kv, supported kv.2 = true) pre.
Proof.
  unfold live.
  induction pre as [|[k0 v0] pre IH]; intros p cur Hpre Hcur Hn.
  - cbn [app fill scratch]. change (supported (PyInt n)) with true. cbv iota.
    by rewrite !decide_False by exact Hn.
  - apply Forall_cons in Hpre as [Hr Hpre]. cbn in Hr.
    cbn [app fill scratch]. destruct (supported v0) eqn:Hs.
    + rewrite !decide_True by exact Hr.
      destruct (IH (<[c_str k0 := DataValue_of v0]> p) (Some (DataValue_of v0)))
        as [-> Hlive]; [done|by left|done|].
      split; [done|]. rewrite filter_cons_True by done. cbn. by f_equal.
    + destruct cur as [d|].
      * destruct (IH (<[c_str k0 := d]> p) (Some d)) as [-> Hlive];
          [done|by left|done|].
        split; [done|]. by rewrite filter_cons_False by (cbn; congruence).
      * destruct Hcur as [[? [=]]|Hsa]. cbn in Hsa. congruence.
Qed.

Lemma collect_keys p keys : ∀ d k,
  (collect p keys d).1 = true →
  k ∈ (collect p keys d).2.*1 ↔ k ∈ d.*1 ∨ k ∈ c_str <$> keys.
Proof.
  induction keys as [|k0 keys IH]; intros d k; cbn [collect].
  - intros _. rewrite fmap_nil, elem_of_nil. tauto.
  - destruct (p !! k0 ≫= pyobj_of) as [o|]; [|done]. intros Hok.
    rewrite (IH _ _ Hok), dict_set_keys, fmap_cons, elem_of_cons. tauto.
Qed.

End MoreFacts.

(** X11: the error path of [dictToParam]. When [dv] is assigned in time and
    the integer of an item does not fit a C long while those before it do,
    the call ends there: it returns the empty container, the entries built
    so far are lost, no Python object has changed, and every [DataValue]
    allocated for the items before that one is still allocated on the
    native heap. *)
Theorem overflow_leaves_DataValues `{Platform} σ dd (pre post : pydict) k n :
  pyobjs σ !! dd = Some (pre ++ (k, PyInt n) :: post) →
  starts_assigned (pre ++ (k, PyInt n) :: post) →
  Forall (λ kv, in_range kv.2) pre →
  ¬ fits LONG_BITS n →
  ∃ added,
    dictToParam dd σ = Returns ∅ (mkState (pyobjs σ) (natives σ ++ added)) ∧
    live added =
      (λ kv, CDataValue (DataValue_of kv.2)) <$> filter (λ kv, supported kv.2 = true) pre.
Proof.
  intros Hdd Hsa Hpre Hn. rewrite (dictToParam_fill _ _ _ Hdd).
  destruct (scratch_overflow pre k n post ∅ None) as [-> Hlive];
    [done|by right|done|].
  by eexists.
Qed.

Lemma overflow_leaves_DataValues_witness :
  ∃ added,
    @dictToParam LP64 0
      (mkState [[("a", PyInt 1); ("n", PyInt (2 ^ 63)); ("z", PyInt 3)]] []) =
      Returns ∅
        (mkState [[("a", PyInt 1); ("n", PyInt (2 ^ 63)); ("z", PyInt 3)]]
                 ([] ++ added)) ∧
    live added =
      (λ kv, CDataValue (DataValue_of kv.2)) <$>
        filter (λ kv : string * pyobj, supported kv.2 = true) [("a", PyInt 1)].
Proof.
  assert (starts_assigned ([("a", PyInt 1)] ++ ("n", PyInt (2 ^ 63)) :: [("z", PyInt 3)]))
    as Hsa by reflexivity.
  assert (Forall (λ kv, @in_range LP64 kv.2) [("a", PyInt 1)]) as Hpre
    by decide_by_eval.
  assert (¬ fits (@LONG_BITS LP64) (2 ^ 63)) as Hn by decide_by_eval.
  exact (@overflow_leaves_DataValues LP64
           (mkState [[("a", PyInt 1); ("n", PyInt (2 ^ 63)); ("z", PyInt 3)]] []) 0
           [("a", PyInt 1)] [("z", PyInt 3)] "n" (2 ^ 63) eq_refl Hsa Hpre Hn).
Defined.

(** X12: when [paramToDict] returns, the keys of the dictionary are distinct
    and are the keys of the container read as C strings (cut at the first
    zero byte), no more and no fewer, also when two keys of the container
    become one. *)
Theorem paramToDict_keys `{Platform} (p : Param) σ rv σ' (d : pydict) :
  paramToDict p σ = Returns rv σ' →
  pyobjs σ' !! rv = Some d →
  dict_wf d ∧ ∀ k, k ∈ d.*1 ↔ ∃ k0, is_Some (p !! k0) ∧ c_str k0 = k.
Proof.
  rewrite paramToDict_collect.
  destruct (collect p (getKeys p) []).1 eqn:Hok; [|done].
  intros [= <- <-]. cbn [pyobjs]. rewrite lookup_snoc. intros [= <-]. split.
  - apply collect_wf. unfold dict_wf. apply NoDup_nil_2.
  - intros k. rewrite (collect_keys _ _ _ _ Hok), fmap_nil, list_elem_of_fmap. split.
    + intros [[]%elem_of_nil|(k0 & -> & Hk0)]. exists k0.
      split; [by apply getKeys_elem|done].
    + intros (k0 & Hk0 & <-). right. exists k0. split; [done|by apply getKeys_elem].
Qed.

Lemma paramToDict_keys_witness :
  dict_wf [("a", PyInt 1)] ∧
  ∀ k, k ∈ [("a", PyInt 1)].*1 ↔
       ∃ k0, is_Some (({[a_NUL_x := DVInt 1; a_NUL_y := DVInt 2]} : Param) !! k0) ∧
             c_str k0 = k.
Proof.
  assert (@paramToDict LP64 {[a_NUL_x := DVInt 1; a_NUL_y := DVInt 2]} (mkState [] []) =
          Returns 0 (mkState [[("a", PyInt 1)]] [])) as Hrun
    by (vm_compute; reflexivity).
  exact (@paramToDict_keys LP64 _ (mkState [] []) 0 _ [("a", PyInt 1)] Hrun eq_refl).
Defined.
